(** * SQLite CSV importer: import pipeline, identifier checks and SQL classifier

    A shallow embedding of [sqlite-csv-importer.py] (its near-duplicate
    [sqlite-db.py] has the same code without the doc strings).

    Modelling conventions.
    - Python [str] values are Rocq [string]s.  The character functions
      ([strip], [upper], [lower], the parsers behind [int] and [float]) are
      written for ASCII text, where they agree with CPython; characters
      above 127 are outside the model.
    - The file system is taken to work: the CSV source exists and decodes,
      and the export destination and the error log accept writes.  What
      [os.path.getsize], [mimetypes.guess_type] and [csv.reader] deliver for
      the source path is an input record ([CsvSource]).
    - The SQLite engine is modelled for exactly the statements the program
      issues.  Statements are kept as syntax trees ([Stmt]) next to the text
      the f-strings build ([sql_text]); the engine model reads the tree,
      which agrees with the text as long as an interpolated name holds no
      quote character.
    - The REAL storage class is kept symbolic ([VNumLit]): binary64
      conversion and rendering are not modelled. *)

From Stdlib Require Import String Ascii List ZArith Bool Lia DecimalString.
Import ListNotations.
Open Scope string_scope.
Open Scope Z_scope.

(** ** Python string operations (ASCII) *)

Module PyStr.

Definition code (c : ascii) : N := N_of_ascii c.

Definition in_range (lo hi : N) (c : ascii) : bool :=
  (lo <=? code c)%N && (code c <=? hi)%N.

Definition is_upper (c : ascii) : bool := in_range 65 90 c.
Definition is_lower (c : ascii) : bool := in_range 97 122 c.
Definition is_alpha (c : ascii) : bool := is_upper c || is_lower c.
Definition is_digit (c : ascii) : bool := in_range 48 57 c.

(** [str.isspace] on ASCII: TAB, LF, VT, FF, CR, the separators 0x1C-0x1F
    and the space. *)
Definition is_space (c : ascii) : bool := in_range 9 13 c || in_range 28 32 c.

Definition to_upper (c : ascii) : ascii :=
  if is_lower c then ascii_of_N (code c - 32) else c.

Definition to_lower (c : ascii) : ascii :=
  if is_upper c then ascii_of_N (code c + 32) else c.

Fixpoint smap (f : ascii -> ascii) (s : string) : string :=
  match s with
  | EmptyString => EmptyString
  | String c r => String (f c) (smap f r)
  end.

Fixpoint sall (p : ascii -> bool) (s : string) : bool :=
  match s with
  | EmptyString => true
  | String c r => p c && sall p r
  end.

Definition upper (s : string) : string := smap to_upper s.
Definition lower (s : string) : string := smap to_lower s.

Definition is_empty (s : string) : bool :=
  match s with EmptyString => true | _ => false end.

(** Stripping the characters that satisfy [p] from both ends. *)
Fixpoint lstrip_with (p : ascii -> bool) (s : string) : string :=
  match s with
  | EmptyString => EmptyString
  | String c r => if p c then lstrip_with p r else s
  end.

Fixpoint rstrip_with (p : ascii -> bool) (s : string) : string :=
  match s with
  | EmptyString => EmptyString
  | String c r =>
      let r' := rstrip_with p r in
      if p c && is_empty r' then EmptyString else String c r'
  end.

Definition strip_with (p : ascii -> bool) (s : string) : string :=
  rstrip_with p (lstrip_with p s).

(** [s.strip()] *)
Definition strip (s : string) : string := strip_with is_space s.

(** C's [isspace] in the "C" locale ([Py_ISSPACE]), which the number
    parsers skip around an ASCII argument: TAB, LF, VT, FF, CR and space. *)
Definition is_c_space (c : ascii) : bool :=
  in_range 9 13 c || Ascii.eqb c " ".

(** [s.replace(a, b)] for one-character [a] and [b]. *)
Definition replace (a b : ascii) (s : string) : string :=
  smap (fun c => if Ascii.eqb c a then b else c) s.

(** The last character of a string. *)
Fixpoint last_char (s : string) : option ascii :=
  match s with
  | EmptyString => None
  | String c r =>
      match last_char r with
      | None => Some c
      | found => found
      end
  end.

(** [s.startswith(p)] *)
Fixpoint startswith (s p : string) : bool :=
  match p with
  | EmptyString => true
  | String a p' =>
      match s with
      | EmptyString => false
      | String b s' => Ascii.eqb b a && startswith s' p'
      end
  end.

(** [s.endswith(p)] *)
Definition endswith (s p : string) : bool :=
  let n := String.length s in
  let m := String.length p in
  (m <=? n)%nat && String.eqb (substring (n - m) m s) p.

(** [str(n)] for a natural number and for an integer. *)
Definition str_nat (n : nat) : string := NilZero.string_of_uint (Nat.to_uint n).
Definition str_Z (z : Z) : string := NilZero.string_of_int (Z.to_int z).

(** Case-insensitive comparison of names, as SQLite and [sqlite3.Row] do. *)
Definition ci_eqb (a b : string) : bool := String.eqb (lower a) (lower b).

End PyStr.
Import PyStr.

(** ** Errors

    The exceptions the core raises, named after the spec's taxonomy; the
    comment gives the Python exception the source raises. *)

Inductive Error : Type :=
| InvalidIdentifier   (* ValueError("Invalid identifier: ...") *)
| FileTooLarge        (* ValueError("CSV file size ... exceeds max allowed ...") *)
| InvalidFileType     (* ValueError("Invalid file type. Only CSV allowed.") *)
| EmptyInput          (* ValueError("CSV appears empty") *)
| RowLengthMismatch   (* ValueError("CSV row length mismatch ...") *)
| TableAlreadyExists  (* FileExistsError("Table ... exists. ...") *)
| StorageError        (* sqlite3.Error raised by the engine *)
| NotConnected.       (* AttributeError: self.conn is None *)

Inductive Result (A : Type) : Type :=
| Ok (a : A)
| Err (e : Error).
Arguments Ok {A} a.
Arguments Err {A} e.

(** ** Constants *)

Definition MAX_CSV_SIZE : Z := 10 * 1024 * 1024.

Definition SAFE_SQL_PREFIXES : list string := ["SELECT"; "PRAGMA"; "EXPLAIN"].

Definition DANGEROUS_SQL_PREFIXES : list string :=
  ["UPDATE"; "DELETE"; "INSERT"; "DROP"; "ALTER"; "REPLACE"; "CREATE TABLE"].

(** ** Identifiers *)

Definition is_ident_start (c : ascii) : bool :=
  is_alpha c || Ascii.eqb c "_".

Definition is_ident_char (c : ascii) : bool :=
  is_alpha c || is_digit c || Ascii.eqb c "_".

(** The identifier pattern [[A-Za-z_][A-Za-z0-9_]*] as a full match. *)
Definition is_identifier (s : string) : bool :=
  match s with
  | EmptyString => false
  | String c r => is_ident_start c && sall is_ident_char r
  end.

(** After the greedy run of identifier characters, [$] accepts the end of
    the string and also the position before one final line feed. *)
Fixpoint ident_tail (s : string) : bool :=
  match s with
  | EmptyString => true
  | String c r =>
      if is_ident_char c then ident_tail r
      else Ascii.eqb c "010" && is_empty r
  end.

(** [IDENT_RE.match(s)] for [IDENT_RE = re.compile(r"^[A-Za-z_][A-Za-z0-9_]*$")]. *)
Definition IDENT_RE_match (s : string) : bool :=
  match s with
  | EmptyString => false
  | String c r => is_ident_start c && ident_tail r
  end.

(** [re.sub(r"[^A-Za-z0-9_]", "_", s)] *)
Definition sub_non_ident (s : string) : string :=
  smap (fun c => if is_alpha c || is_digit c || Ascii.eqb c "_" then c else "_"%char) s.

(** [sanitize_identifier]: the [isinstance] guard is discharged by the type. *)
Definition sanitize_identifier (name : string) : Result string :=
  let name := strip name in
  if negb (IDENT_RE_match name) then Err InvalidIdentifier
  else Ok name.

(** ** SQL safety classifier *)

(** [any(sql.startswith(prefix) for prefix in prefixes)] *)
Definition any_prefix (prefixes : list string) (sql : string) : bool :=
  existsb (fun prefix => startswith sql prefix) prefixes.

Definition is_sql_dangerous (sql : string) : bool :=
  let sql := upper (strip sql) in
  any_prefix DANGEROUS_SQL_PREFIXES sql.

Definition is_sql_safe (sql : string) : bool :=
  let sql := upper (strip sql) in
  any_prefix SAFE_SQL_PREFIXES sql.

Inductive Classification : Type := Safe | Dangerous | Disallowed.

(** The three-way outcome [cli_query] derives from the two predicates: a
    statement that is neither safe nor dangerous is refused, a dangerous one
    needs confirmation, the rest runs as a read. *)
Definition classify (sql : string) : Classification :=
  if negb (is_sql_safe sql || is_sql_dangerous sql) then Disallowed
  else if is_sql_dangerous sql then Dangerous
  else Safe.

(** Section 4.4 in the specification's words: after trimming and without
    regard to case, the statement begins with a member of the set. *)
Definition leading_keyword_in (keywords : list string) (sql : string) : Prop :=
  exists k, In k keywords /\ startswith (upper (strip sql)) k = true.

(** ** The parsers behind [int(v)] and [float(v)] *)

Definition digit_val (c : ascii) : Z := Z.of_N (code c) - 48.

Definition is_sign (c : ascii) : bool := Ascii.eqb c "+" || Ascii.eqb c "-".

Definition drop_sign (s : string) : string :=
  match s with
  | String c r => if is_sign c then r else s
  | EmptyString => s
  end.

Definition is_negative (s : string) : bool :=
  match s with
  | String c _ => Ascii.eqb c "-"
  | EmptyString => false
  end.

(** Digits with single underscores between them, read after a first digit;
    yields the value and the number of digits. *)
Fixpoint int_digits (acc : Z) (n : nat) (s : string) : option (Z * nat) :=
  match s with
  | EmptyString => Some (acc, n)
  | String c r =>
      if is_digit c then int_digits (acc * 10 + digit_val c) (S n) r
      else if Ascii.eqb c "_" then
        match r with
        | String d r' =>
            if is_digit d then int_digits (acc * 10 + digit_val d) (S n) r'
            else None
        | EmptyString => None
        end
      else None
  end.

(** [sys.get_int_max_str_digits()] *)
Definition int_max_str_digits : nat := 4300.

(** [int(v)]: [Some z] when the call returns [z], [None] when it raises. *)
Definition py_int (v : string) : option Z :=
  let t := strip_with is_c_space v in
  match drop_sign t with
  | String c r =>
      if is_digit c then
        match int_digits (digit_val c) 1 r with
        | Some (z, n) =>
            if (n <=? int_max_str_digits)%nat
            then Some (if is_negative t then - z else z)
            else None
        | None => None
        end
      else None
  | EmptyString => None
  end.

(** Every underscore stands between two digits. *)
Fixpoint underscores_ok (prev_digit : bool) (s : string) : bool :=
  match s with
  | EmptyString => true
  | String c r =>
      if Ascii.eqb c "_" then
        prev_digit &&
        match r with
        | String d _ => is_digit d
        | EmptyString => false
        end && underscores_ok false r
      else underscores_ok (is_digit c) r
  end.

Fixpoint remove_underscores (s : string) : string :=
  match s with
  | EmptyString => EmptyString
  | String c r =>
      if Ascii.eqb c "_" then remove_underscores r
      else String c (remove_underscores r)
  end.

(** The leading run of digits: its length and what follows. *)
Fixpoint skip_digits (s : string) : nat * string :=
  match s with
  | String c r =>
      if is_digit c then let '(n, rest) := skip_digits r in (S n, rest)
      else (O, s)
  | EmptyString => (O, s)
  end.

(** An unsigned decimal number: digits with an optional fraction, at least
    one digit in all, and an optional exponent with at least one digit. *)
Definition decimal_literal (s : string) : bool :=
  let '(n1, r1) := skip_digits s in
  let '(n2, r2) :=
    match r1 with
    | String "." r => skip_digits r
    | _ => (O, r1)
    end in
  if (n1 + n2 =? 0)%nat then false
  else
    match r2 with
    | EmptyString => true
    | String c r =>
        if Ascii.eqb c "e" || Ascii.eqb c "E" then
          let '(n3, r3) := skip_digits (drop_sign r) in
          (0 <? n3)%nat && is_empty r3
        else false
    end.

Definition is_inf_or_nan (s : string) : bool :=
  let l := lower s in
  String.eqb l "inf" || String.eqb l "infinity" || String.eqb l "nan".

(** [float(v)] returns (rather than raises). *)
Definition py_float_ok (v : string) : bool :=
  let t := strip_with is_c_space v in
  underscores_ok false t &&
  let body := drop_sign (remove_underscores t) in
  (decimal_literal body || is_inf_or_nan body).

Definition py_int_ok (v : string) : bool :=
  match py_int v with Some _ => true | None => false end.

(** ** Type inference *)

Inductive StorageType : Type := INTEGER | REAL | TEXT.

Definition StorageType_eqb (a b : StorageType) : bool :=
  match a, b with
  | INTEGER, INTEGER | REAL, REAL | TEXT, TEXT => true
  | _, _ => false
  end.

(** The loop of [consistent_types], entered with the running type [t]. *)
Fixpoint consistent_types_from (t : StorageType) (values : list string)
  : StorageType :=
  match values with
  | [] => t
  | v :: rest =>
      if String.eqb v "" then TEXT
      else if py_int_ok v then consistent_types_from t rest
      else if py_float_ok v then
        consistent_types_from
          (if StorageType_eqb t INTEGER then REAL else t) rest
      else TEXT
  end.

Definition consistent_types (values : list string) : StorageType :=
  consistent_types_from INTEGER values.

(** [inferType] as section 4.2 of the specification words it, kept apart
    from the source's loop to be compared with it. *)
Inductive SampleKind : Type := KEmpty | KInt | KFloat | KOther.

Definition sample_kind (v : string) : SampleKind :=
  if is_empty v then KEmpty
  else if py_int_ok v then KInt
  else if py_float_ok v then KFloat
  else KOther.

Definition promote (candidate : StorageType) : StorageType :=
  match candidate with
  | INTEGER => REAL
  | other => other
  end.

Fixpoint inferType_scan (candidate : StorageType) (samples : list string)
  : StorageType :=
  match samples with
  | [] => candidate
  | v :: rest =>
      match sample_kind v with
      | KEmpty => TEXT
      | KInt => inferType_scan candidate rest
      | KFloat => inferType_scan (promote candidate) rest
      | KOther => TEXT
      end
  end.

Definition inferType_spec (samples : list string) : StorageType :=
  inferType_scan INTEGER samples.

(** The two kinds of sample that end the scan, and the two that do not. *)
Definition forces_text (v : string) : Prop :=
  sample_kind v = KEmpty \/ sample_kind v = KOther.

Definition numeric (v : string) : Prop :=
  sample_kind v = KInt \/ sample_kind v = KFloat.

(** ** The built-in [hash] on strings

    CPython hashes a [str] with SipHash-1-3 over its bytes, keyed by a
    128-bit secret fixed when the interpreter starts: random by default,
    derived from [PYTHONHASHSEED] when that is set (all zero for seed 0). *)

Module SipHash.

Definition w64 (x : Z) : Z := Z.land x (Z.ones 64).

Definition add64 (a b : Z) : Z := w64 (a + b).

Definition rotl (x b : Z) : Z :=
  w64 (Z.lor (Z.shiftl x b) (Z.shiftr x (64 - b))).

Definition Lanes : Type := (Z * Z * Z * Z)%type.

(** [HALF_ROUND(a, b, c, d, s, t)] *)
Definition half_round (a b c d s t : Z) : Lanes :=
  let a := add64 a b in
  let c := add64 c d in
  let b := Z.lxor (rotl b s) a in
  let d := Z.lxor (rotl d t) c in
  let a := rotl a 32 in
  (a, b, c, d).

(** [SINGLE_ROUND(v0, v1, v2, v3)] *)
Definition single_round (v : Lanes) : Lanes :=
  let '(v0, v1, v2, v3) := v in
  let '(v0, v1, v2, v3) := half_round v0 v1 v2 v3 13 16 in
  let '(v2, v1, v0, v3) := half_round v2 v1 v0 v3 17 21 in
  (v0, v1, v2, v3).

(** Little-endian value of at most eight bytes. *)
Fixpoint le_bytes (bs : list Z) : Z :=
  match bs with
  | [] => 0
  | b :: rest => Z.lor b (Z.shiftl (le_bytes rest) 8)
  end.

Definition absorb (v : Lanes) (m : Z) : Lanes :=
  let '(v0, v1, v2, v3) := v in
  let '(v0, v1, v2, v3) := single_round (v0, v1, v2, Z.lxor v3 m) in
  (Z.lxor v0 m, v1, v2, v3).

(** The loop over whole 8-byte words; yields the lanes and the tail. *)
Fixpoint absorb_words (v : Lanes) (bs : list Z) : Lanes * list Z :=
  match bs with
  | b0 :: b1 :: b2 :: b3 :: b4 :: b5 :: b6 :: b7 :: rest =>
      absorb_words (absorb v (le_bytes [b0; b1; b2; b3; b4; b5; b6; b7])) rest
  | tail => (v, tail)
  end.

Definition siphash13 (k0 k1 : Z) (src : list Z) : Z :=
  let b := w64 (Z.shiftl (Z.of_nat (List.length src)) 56) in
  let v := (Z.lxor k0 0x736f6d6570736575, Z.lxor k1 0x646f72616e646f6d,
            Z.lxor k0 0x6c7967656e657261, Z.lxor k1 0x7465646279746573) in
  let '(v, tail) := absorb_words v src in
  let b := Z.lor b (le_bytes tail) in
  let '(v0, v1, v2, v3) := absorb v b in
  let v2 := Z.lxor v2 0xff in
  let '(v0, v1, v2, v3) :=
    single_round (single_round (single_round (v0, v1, v2, v3))) in
  Z.lxor (Z.lxor v0 v1) (Z.lxor v2 v3).

(** The cast to the signed [Py_hash_t]. *)
Definition to_signed64 (x : Z) : Z :=
  if x <? 2 ^ 63 then x else x - 2 ^ 64.

End SipHash.

(** The interpreter's hash secret: the two SipHash key words. *)
Record HashSecret : Type := { hs_k0 : Z; hs_k1 : Z }.

Definition bytes_of (s : string) : list Z :=
  map (fun c => Z.of_N (code c)) (list_ascii_of_string s).

(** [hash(s)] in an interpreter whose secret is [secret]. *)
Definition py_hash (secret : HashSecret) (s : string) : Z :=
  if is_empty s then 0
  else
    let x := SipHash.to_signed64
               (SipHash.siphash13 (hs_k0 secret) (hs_k1 secret) (bytes_of s)) in
    if x =? -1 then -2 else x.

(** ** Header normalization (the two passes at the top of [import_csv]) *)

Fixpoint enumerate_from {A : Type} (i : nat) (l : list A) : list (nat * A) :=
  match l with
  | [] => []
  | x :: rest => (i, x) :: enumerate_from (S i) rest
  end.

Definition enumerate {A : Type} (l : list A) : list (nat * A) :=
  enumerate_from 0 l.

(** [h.strip().replace(" ", "_") or f"col{i}"] *)
Definition header_first_pass (i : nat) (h : string) : string :=
  let t := replace " " "_" (strip h) in
  if is_empty t then "col" ++ str_nat i else t.

(** The body of the repair loop; [hash] is the interpreter's [hash]. *)
Definition header_second_pass (hash : string -> Z) (h : string) : string :=
  if negb (IDENT_RE_match h) then
    let safe := sub_non_ident h in
    if negb (IDENT_RE_match safe)
    then "col_" ++ str_Z (Z.land (hash h) 0xFFFF)
    else safe
  else h.

Definition normalize_headers (hash : string -> Z) (headers : list string)
  : list string :=
  let headers :=
    map (fun ih => header_first_pass (fst ih) (snd ih)) (enumerate headers) in
  map (header_second_pass hash) headers.

(** One header cell through both passes: the spec's [normalizeHeader]. *)
Definition normalizeHeader (hash : string -> Z) (raw : string) (i : nat)
  : string :=
  header_second_pass hash (header_first_pass i raw).

(** ** The storage engine (SQLite), for the statements the program issues *)

(** What a cell holds.  [VNumLit lit] stands for the number SQLite's
    text-to-real conversion gives the literal [lit]; its binary64 value and
    its rendering are not modelled. *)
Inductive Value : Type :=
| VNull
| VInteger (z : Z)
| VNumLit (lit : string)
| VText (s : string).

(** Declared column types: the three the importer infers, and the
    [TIMESTAMP] of the audit table. *)
Inductive DeclType : Type := DInteger | DReal | DText | DTimestamp.

Definition decl_of (t : StorageType) : DeclType :=
  match t with
  | INTEGER => DInteger
  | REAL => DReal
  | TEXT => DText
  end.

Definition type_name (t : StorageType) : string :=
  match t with
  | INTEGER => "INTEGER"
  | REAL => "REAL"
  | TEXT => "TEXT"
  end.

Definition decl_name (d : DeclType) : string :=
  match d with
  | DInteger => "INTEGER"
  | DReal => "REAL"
  | DText => "TEXT"
  | DTimestamp => "TIMESTAMP"
  end.

(** What the engine supplies for a column an INSERT leaves out. *)
Inductive ColDefault : Type := DefNull | DefRowid | DefCurrentTimestamp.

Record Column : Type := {
  c_name : string;
  c_decl : DeclType;
  c_notnull : bool;
  c_pk : bool;
  c_default : ColDefault
}.

Record Table : Type := {
  t_name : string;
  t_cols : list Column;
  t_rows : list (list Value)
}.

Record Index : Type := {
  i_name : string;
  i_table : string;
  i_column : string
}.

Record DB : Type := {
  tables : list Table;
  indexes : list Index
}.

Definition plain_column (name : string) (t : StorageType) : Column :=
  {| c_name := name; c_decl := decl_of t; c_notnull := false; c_pk := false;
     c_default := DefNull |}.

Definition audit_columns : list Column :=
  [ {| c_name := "id"; c_decl := DInteger; c_notnull := false; c_pk := true;
       c_default := DefRowid |};
    {| c_name := "event_type"; c_decl := DText; c_notnull := true;
       c_pk := false; c_default := DefNull |};
    {| c_name := "details"; c_decl := DText; c_notnull := false;
       c_pk := false; c_default := DefNull |};
    {| c_name := "created_at"; c_decl := DTimestamp; c_notnull := false;
       c_pk := false; c_default := DefCurrentTimestamp |} ].

(** Table and index names resolve without regard to letter case. *)
Definition find_table (db : DB) (name : string) : option Table :=
  find (fun t => ci_eqb (t_name t) name) (tables db).

Definition find_index (db : DB) (name : string) : option Index :=
  find (fun i => ci_eqb (i_name i) name) (indexes db).

Definition find_column (cols : list Column) (name : string) : option Column :=
  find (fun c => ci_eqb (c_name c) name) cols.

(** Names starting with [sqlite_] are reserved for the engine. *)
Definition reserved_name (name : string) : bool :=
  startswith (lower name) "sqlite_".

Fixpoint has_duplicate (names : list string) : bool :=
  match names with
  | [] => false
  | n :: rest => existsb (ci_eqb n) rest || has_duplicate rest
  end.

(** [SQLITE_MAX_COLUMN] *)
Definition SQLITE_MAX_COLUMN : nat := 2000.

(** *** Column affinity applied to a text value *)

(** A decimal integer literal, with optional sign and surrounding blanks. *)
Definition sqlite_integer (s : string) : option Z :=
  let t := strip_with is_c_space s in
  match drop_sign t with
  | String c r =>
      if is_digit c && sall is_digit r then
        match int_digits (digit_val c) 1 r with
        | Some (z, _) => Some (if is_negative t then - z else z)
        | None => None
        end
      else None
  | EmptyString => None
  end.

Definition sqlite_number (s : string) : bool :=
  decimal_literal (drop_sign (strip_with is_c_space s)).

Definition fits_int64 (z : Z) : bool :=
  (- 2 ^ 63 <=? z) && (z <? 2 ^ 63).

Definition apply_affinity (d : DeclType) (s : string) : Value :=
  match d with
  | DText => VText s
  | DInteger | DTimestamp =>
      match sqlite_integer s with
      | Some z => if fits_int64 z then VInteger z else VNumLit s
      | None => if sqlite_number s then VNumLit s else VText s
      end
  | DReal => if sqlite_number s then VNumLit s else VText s
  end.

(** *** Statements *)

Inductive Stmt : Type :=
| CreateAuditTable
| InsertAudit (event_type details : string)
| SelectMasterTable (name : string)
| SelectMasterTables
| CreateTableIfNotExists (tn : string) (cols : list (string * StorageType))
| InsertInto (tn : string) (cols : list string) (vals : list string)
| CreateIndexIfNotExists (idx_name tn ci : string)
| SelectAllFrom (table_name : string)
| PragmaTableInfo (table_name : string).

Definition quote (s : string) : string := "'" ++ s ++ "'".

(** The statement text handed to [execute], as the source builds it (the
    audit table's statement up to its line breaks and indentation). *)
Definition sql_text (stmt : Stmt) : string :=
  match stmt with
  | CreateAuditTable =>
      "CREATE TABLE IF NOT EXISTS audit_log (id INTEGER PRIMARY KEY AUTOINCREMENT, event_type TEXT NOT NULL, details TEXT, created_at TIMESTAMP DEFAULT CURRENT_TIMESTAMP)"
  | InsertAudit _ _ =>
      "INSERT INTO audit_log (event_type, details) VALUES (?, ?)"
  | SelectMasterTable _ =>
      "SELECT name FROM sqlite_master WHERE type='table' AND name=?"
  | SelectMasterTables =>
      "SELECT name FROM sqlite_master WHERE type='table' AND name NOT LIKE 'sqlite_%' ORDER BY name"
  | CreateTableIfNotExists tn cols =>
      let columns_sql :=
        map (fun c => quote (fst c) ++ " " ++ type_name (snd c)) cols in
      let create_fragment := String.concat ", " columns_sql in
      "CREATE TABLE IF NOT EXISTS " ++ quote tn ++ " (" ++ create_fragment ++ ")"
  | InsertInto tn cols _ =>
      let placeholders := String.concat "," (map (fun _ => "?") cols) in
      let collist := String.concat "," (map quote cols) in
      "INSERT INTO " ++ quote tn ++ " (" ++ collist ++ ") VALUES ("
        ++ placeholders ++ ")"
  | CreateIndexIfNotExists idx_name tn ci =>
      "CREATE INDEX IF NOT EXISTS " ++ quote idx_name ++ " ON " ++ quote tn
        ++ "(" ++ quote ci ++ ")"
  | SelectAllFrom table_name => "SELECT * FROM " ++ quote table_name
  | PragmaTableInfo table_name => "PRAGMA table_info(" ++ quote table_name ++ ")"
  end.

(** The table and column names a statement's text carries by interpolation
    (bound parameters are not part of the text). *)
Definition interpolated (stmt : Stmt) : list string :=
  match stmt with
  | CreateTableIfNotExists tn cols => tn :: map fst cols
  | InsertInto tn cols _ => tn :: cols
  | CreateIndexIfNotExists idx_name tn ci => [idx_name; tn; ci]
  | SelectAllFrom table_name => [table_name]
  | PragmaTableInfo table_name => [table_name]
  | _ => []
  end.

(** INSERT, UPDATE, DELETE and REPLACE statements: the ones before which the
    [sqlite3] module opens a transaction when it manages transactions. *)
Definition is_dml (stmt : Stmt) : bool :=
  match stmt with
  | InsertAudit _ _ | InsertInto _ _ _ => true
  | _ => false
  end.

(** What a cursor holds after [execute]: [description] names and rows. *)
Record QueryResult : Type := {
  q_columns : list string;
  q_rows : list (list Value)
}.

Definition no_rows : QueryResult := {| q_columns := []; q_rows := [] |}.

(** *** Executing a statement *)

Definition create_table_if_not_exists (db : DB) (name : string)
  (cols : list Column) : Result DB :=
  match cols with
  | [] => Err StorageError                        (* syntax error *)
  | _ =>
      if reserved_name name then Err StorageError
      else
        match find_table db name with
        | Some _ => Ok db                         (* IF NOT EXISTS *)
        | None =>
            match find_index db name with
            | Some _ => Err StorageError
            | None =>
                if has_duplicate (map c_name cols) then Err StorageError
                else if (SQLITE_MAX_COLUMN <? List.length cols)%nat
                then Err StorageError
                else
                  Ok {| tables := tables db ++
                          [ {| t_name := name; t_cols := cols; t_rows := [] |} ];
                        indexes := indexes db |}
            end
        end
  end.

(** The value bound to column [name]: the first pair of the column list. *)
Fixpoint bound_value (pairs : list (string * string)) (name : string)
  : option string :=
  match pairs with
  | [] => None
  | (c, v) :: rest => if ci_eqb c name then Some v else bound_value rest name
  end.

Definition value_z (v : Value) : Z :=
  match v with
  | VInteger z => z
  | _ => 0
  end.

(** One more than the largest key in use (keys start at 1): the key the
    engine gives the next row of a table from which no row was deleted and
    whose keys are below the 64-bit limit.  The counter that an
    AUTOINCREMENT key keeps in [sqlite_sequence] is outside the model. *)
Definition next_rowid (t : Table) : Z :=
  1 + fold_right Z.max 0
        (map (fun row =>
                fold_right Z.max 0
                  (map (fun cv => if c_pk (fst cv) then value_z (snd cv) else 0)
                       (combine (t_cols t) row)))
             (t_rows t)).

Definition default_value (now : string) (t : Table) (c : Column) : Value :=
  match c_default c with
  | DefNull => VNull
  | DefRowid => VInteger (next_rowid t)
  | DefCurrentTimestamp => apply_affinity (c_decl c) now
  end.

Definition new_row (now : string) (t : Table) (cols vals : list string)
  : list Value :=
  map (fun c =>
         match bound_value (combine cols vals) (c_name c) with
         | Some v => apply_affinity (c_decl c) v
         | None => default_value now t c
         end)
      (t_cols t).

Fixpoint replace_table (ts : list Table) (name : string) (t' : Table)
  : list Table :=
  match ts with
  | [] => []
  | t :: rest =>
      if ci_eqb (t_name t) name then t' :: rest
      else t :: replace_table rest name t'
  end.

Definition insert_into (now : string) (db : DB) (tn : string)
  (cols vals : list string) : Result DB :=
  match find_table db tn with
  | None => Err StorageError                      (* no such table *)
  | Some t =>
      if negb (forallb (fun c => match find_column (t_cols t) c with
                                 | Some _ => true
                                 | None => false
                                 end) cols)
      then Err StorageError                       (* no such column *)
      else if negb (List.length vals =? List.length cols)%nat
      then Err StorageError                       (* wrong number of bindings *)
      else
        let t' := {| t_name := t_name t; t_cols := t_cols t;
                     t_rows := t_rows t ++ [new_row now t cols vals] |} in
        Ok {| tables := replace_table (tables db) tn t';
              indexes := indexes db |}
  end.

Definition create_index_if_not_exists (db : DB) (idx_name tn ci : string)
  : Result DB :=
  match find_table db tn with
  | None => Err StorageError
  | Some t =>
      if reserved_name idx_name then Err StorageError
      else
        match find_table db idx_name with
        | Some _ => Err StorageError
        | None =>
            match find_index db idx_name with
            | Some _ => Ok db                     (* IF NOT EXISTS *)
            | None =>
                match find_column (t_cols t) ci with
                | None => Err StorageError
                | Some _ =>
                    Ok {| tables := tables db;
                          indexes := indexes db ++
                            [ {| i_name := idx_name; i_table := t_name t;
                                 i_column := ci |} ] |}
                end
            end
        end
  end.

Definition bool_value (b : bool) : Value := VInteger (if b then 1 else 0).

(** The rows of [PRAGMA table_info]: cid, name, type, notnull, dflt_value, pk. *)
Definition table_info_rows (cols : list Column) : list (list Value) :=
  map (fun ic =>
         let c := snd ic in
         [ VInteger (Z.of_nat (fst ic)); VText (c_name c);
           VText (decl_name (c_decl c)); bool_value (c_notnull c);
           match c_default c with
           | DefCurrentTimestamp => VText "CURRENT_TIMESTAMP"
           | _ => VNull
           end;
           bool_value (c_pk c) ])
      (enumerate cols).

(** Insertion sort on names, for [ORDER BY name]. *)
Fixpoint insert_sorted (x : string) (l : list string) : list string :=
  match l with
  | [] => [x]
  | y :: rest => if String.leb x y then x :: l else y :: insert_sorted x rest
  end.

Definition sort_names (l : list string) : list string :=
  fold_right insert_sorted [] l.

(** [name NOT LIKE 'sqlite_%']: in a LIKE pattern [_] matches any one
    character, and letters match without regard to case. *)
Definition like_sqlite_any (name : string) : bool :=
  startswith (lower name) "sqlite" && (7 <=? String.length name)%nat.

(** [now] is the clock reading the engine uses for [CURRENT_TIMESTAMP].
    The engine's own tables ([sqlite_master], [sqlite_sequence]) are not
    among [tables]: the statements are modelled for names that are not
    reserved. *)
Definition run_stmt (now : string) (db : DB) (stmt : Stmt)
  : Result (DB * QueryResult) :=
  let changed (r : Result DB) :=
    match r with
    | Ok db' => Ok (db', no_rows)
    | Err e => Err e
    end in
  match stmt with
  | CreateAuditTable =>
      changed (create_table_if_not_exists db "audit_log" audit_columns)
  | InsertAudit event_type details =>
      changed (insert_into now db "audit_log" ["event_type"; "details"]
                 [event_type; details])
  | SelectMasterTable name =>
      Ok (db, {| q_columns := ["name"];
                 q_rows := map (fun t => [VText (t_name t)])
                             (filter (fun t => String.eqb (t_name t) name)
                                (tables db)) |})
  | SelectMasterTables =>
      Ok (db, {| q_columns := ["name"];
                 q_rows := map (fun n => [VText n])
                             (sort_names
                                (filter (fun n => negb (like_sqlite_any n))
                                   (map t_name (tables db)))) |})
  | CreateTableIfNotExists tn cols =>
      changed (create_table_if_not_exists db tn
                 (map (fun c => plain_column (fst c) (snd c)) cols))
  | InsertInto tn cols vals => changed (insert_into now db tn cols vals)
  | CreateIndexIfNotExists idx_name tn ci =>
      changed (create_index_if_not_exists db idx_name tn ci)
  | SelectAllFrom table_name =>
      match find_table db table_name with
      | None => Err StorageError
      | Some t => Ok (db, {| q_columns := map c_name (t_cols t);
                             q_rows := t_rows t |})
      end
  | PragmaTableInfo table_name =>
      Ok (db, {| q_columns := ["cid"; "name"; "type"; "notnull";
                               "dflt_value"; "pk"];
                 q_rows := match find_table db table_name with
                           | None => []
                           | Some t => table_info_rows (t_cols t)
                           end |})
  end.

(** ** Program state and the exception monad *)

(** [isolation_level] of a [sqlite3] connection; [None] is the option's
    [None]. *)
Inductive IsolationLevel : Type := Deferred | Immediate | Exclusive.

(** One CSV file as written by the exporter: the rows handed to
    [csv.writer]. *)
Record CsvFile : Type := {
  f_path : string;
  f_header : list string;
  f_rows : list (list Value)
}.

Record State : Type := {
  st_connected : bool;                   (* self.conn is set *)
  st_isolation : option IsolationLevel;  (* the connection's isolation_level *)
  st_db : DB;                            (* the database as the connection sees it *)
  st_tx : option DB;                     (* open transaction: the state a rollback restores *)
  st_now : string;                       (* the engine clock *)
  st_trace : list Stmt;                  (* statements executed so far *)
  st_errlog : list Error;                (* entries appended to LOG_FILE *)
  st_files : list CsvFile                (* files written so far *)
}.

Definition set_db (db : DB) (s : State) : State :=
  {| st_connected := st_connected s; st_isolation := st_isolation s;
     st_db := db; st_tx := st_tx s; st_now := st_now s;
     st_trace := st_trace s; st_errlog := st_errlog s;
     st_files := st_files s |}.

Definition set_tx (tx : option DB) (s : State) : State :=
  {| st_connected := st_connected s; st_isolation := st_isolation s;
     st_db := st_db s; st_tx := tx; st_now := st_now s;
     st_trace := st_trace s; st_errlog := st_errlog s;
     st_files := st_files s |}.

Definition add_trace (stmt : Stmt) (s : State) : State :=
  {| st_connected := st_connected s; st_isolation := st_isolation s;
     st_db := st_db s; st_tx := st_tx s; st_now := st_now s;
     st_trace := st_trace s ++ [stmt]; st_errlog := st_errlog s;
     st_files := st_files s |}.

Definition add_errlog (e : Error) (s : State) : State :=
  {| st_connected := st_connected s; st_isolation := st_isolation s;
     st_db := st_db s; st_tx := st_tx s; st_now := st_now s;
     st_trace := st_trace s; st_errlog := st_errlog s ++ [e];
     st_files := st_files s |}.

Definition add_file (f : CsvFile) (s : State) : State :=
  {| st_connected := st_connected s; st_isolation := st_isolation s;
     st_db := st_db s; st_tx := st_tx s; st_now := st_now s;
     st_trace := st_trace s; st_errlog := st_errlog s;
     st_files := st_files s ++ [f] |}.

(** What is durably in the database: with a transaction open, the state at
    its start. *)
Definition committed (s : State) : DB :=
  match st_tx s with
  | Some snapshot => snapshot
  | None => st_db s
  end.

Inductive Outcome (A : Type) : Type :=
| Returned (a : A)
| Raised (e : Error).
Arguments Returned {A} a.
Arguments Raised {A} e.

Definition M (A : Type) : Type := State -> Outcome A * State.

Definition ret {A : Type} (a : A) : M A := fun s => (Returned a, s).

Definition raise {A : Type} (e : Error) : M A := fun s => (Raised e, s).

Definition bind {A B : Type} (m : M A) (k : A -> M B) : M B :=
  fun s =>
    match m s with
    | (Returned a, s') => k a s'
    | (Raised e, s') => (Raised e, s')
    end.

Notation "x <- m ;; k" := (bind m (fun x => k))
  (at level 61, m at next level, right associativity).
Notation "m ;; k" := (bind m (fun _ => k))
  (at level 61, right associativity).

Definition lift {A : Type} (r : Result A) : M A :=
  match r with
  | Ok a => ret a
  | Err e => raise e
  end.

(** [try: body / except Exception as e: handler(e)] *)
Definition try_except {A : Type} (body : M A) (handler : Error -> M A) : M A :=
  fun s =>
    match body s with
    | (Raised e, s') => handler e s'
    | r => r
    end.

(** Leaving a [with self.conn:] block: commit when the body returned, roll
    back when it raised; both do nothing unless a transaction is open. *)
Definition conn_exit (failed : bool) (s : State) : State :=
  match st_tx s with
  | None => s
  | Some snapshot =>
      if failed then set_tx None (set_db snapshot s) else set_tx None s
  end.

Definition with_connection {A : Type} (body : M A) : M A :=
  fun s =>
    if negb (st_connected s) then (Raised NotConnected, s)
    else
      match body s with
      | (Returned a, s') => (Returned a, conn_exit false s')
      | (Raised e, s') => (Raised e, conn_exit true s')
      end.

(** [cursor.execute(sql, params)].  A connection that manages transactions
    (isolation level set) opens one before a data-changing statement. *)
Definition execute (stmt : Stmt) : M QueryResult :=
  fun s =>
    if negb (st_connected s) then (Raised NotConnected, s)
    else
      let s := add_trace stmt s in
      let s :=
        match st_isolation s, st_tx s with
        | Some _, None => if is_dml stmt then set_tx (Some (st_db s)) s else s
        | _, _ => s
        end in
      match run_stmt (st_now s) (st_db s) stmt with
      | Ok (db', q) => (Returned q, set_db db' s)
      | Err e => (Raised e, s)
      end.

(** ** DatabaseManager *)

(** [sqlite3.connect(self.db_path, isolation_level=None, ...)] *)
Definition open_connection : M unit :=
  fun s =>
    (Returned tt,
     {| st_connected := true; st_isolation := None;
        st_db := st_db s; st_tx := None; st_now := st_now s;
        st_trace := st_trace s; st_errlog := st_errlog s;
        st_files := st_files s |}).

(** Its leading [self.connect()] returns at once when reached from
    [connect], the only caller. *)
Definition _create_audit_table : M unit :=
  with_connection (execute CreateAuditTable ;; ret tt).

Definition connect : M unit :=
  fun s =>
    if st_connected s then (Returned tt, s)
    else (open_connection ;; _create_audit_table) s.

Definition log_error (exc : Error) : M unit :=
  fun s => (Returned tt, add_errlog exc s).

(** The [try] body of [_log_event]: the audit row written in its own
    [with self.conn:] block. *)
Definition audit_write (event_type details : string) : M unit :=
  with_connection (execute (InsertAudit event_type details) ;; ret tt).

Definition _log_event (event_type details : string) : M unit :=
  try_except (audit_write event_type details) (fun e => log_error e).

Definition first_cell (row : list Value) : Value := hd VNull row.

Definition list_tables : M (list Value) :=
  connect ;;
  q <- execute SelectMasterTables ;;
  ret (map first_cell (q_rows q)).

Definition table_info (table_name : string) : M (list (list Value)) :=
  connect ;;
  q <- execute (PragmaTableInfo table_name) ;;
  ret (q_rows q).

(** [cur.fetchone()] right after [execute]. *)
Definition fetchone (q : QueryResult) : option (list Value) := hd_error (q_rows q).

(** What the file system and [csv.reader] deliver for the source path. *)
Record CsvSource : Type := {
  src_size : Z;                     (* os.path.getsize(csv_path) *)
  src_mime : option string;         (* mimetypes.guess_type(csv_path)[0] *)
  src_rows : list (list string)     (* the rows csv.reader yields *)
}.

(** The sampling loop: at most [n] rows, each checked against the header
    width; yields the samples and the rows left in the reader. *)
Fixpoint read_samples (width n : nat) (rows : list (list string))
  : Result (list (list string) * list (list string)) :=
  match n with
  | O => Ok ([], rows)
  | S n' =>
      match rows with
      | [] => Ok ([], [])
      | row :: rest =>
          if negb (List.length row =? width)%nat then Err RowLengthMismatch
          else
            match read_samples width n' rest with
            | Ok (samples, remaining) => Ok (row :: samples, remaining)
            | Err e => Err e
            end
      end
  end.

(** One [(name, type)] pair per header, the type inferred from that
    column's sampled values. *)
Definition infer_columns (headers : list string)
  (sample_rows : list (list string)) : list (string * StorageType) :=
  map (fun ic =>
         let sample_vals := map (fun row => nth (fst ic) row "") sample_rows in
         (snd ic, consistent_types sample_vals))
      (enumerate headers).

Definition cleaned (row : list string) : list string := map strip row.

Fixpoint insert_sample_rows (tn : string) (headers : list string)
  (rows : list (list string)) : M unit :=
  match rows with
  | [] => ret tt
  | row :: rest =>
      execute (InsertInto tn headers (cleaned row)) ;;
      insert_sample_rows tn headers rest
  end.

Fixpoint insert_remaining_rows (tn : string) (headers : list string)
  (rows : list (list string)) : M unit :=
  match rows with
  | [] => ret tt
  | row :: rest =>
      if negb (List.length row =? List.length headers)%nat
      then raise RowLengthMismatch
      else
        execute (InsertInto tn headers (cleaned row)) ;;
        insert_remaining_rows tn headers rest
  end.

Definition create_index (tn : string) (create_index_on : option string)
  : M unit :=
  match create_index_on with
  | None => ret tt
  | Some col =>
      if is_empty col then ret tt
      else
        ci <- lift (sanitize_identifier col) ;;
        let idx_name := "idx_" ++ tn ++ "_" ++ ci in
        execute (CreateIndexIfNotExists idx_name tn ci) ;;
        ret tt
  end.

(** The body of the [with self.conn:] block of [import_csv]. *)
Definition import_block (tn : string) (columns : list (string * StorageType))
  (headers : list string) (sample_rows remaining : list (list string))
  (create_index_on : option string) : M unit :=
  execute (CreateTableIfNotExists tn columns) ;;
  insert_sample_rows tn headers sample_rows ;;
  insert_remaining_rows tn headers remaining ;;
  create_index tn create_index_on.

Definition import_details (tn csv_path : string) (size : Z) : string :=
  "Imported " ++ tn ++ " from " ++ csv_path ++ " (" ++ str_Z size ++ " bytes)".

(** Everything in [import_csv] before its closing [self._log_event]. *)
Definition import_main (hash : string -> Z) (src : CsvSource)
  (csv_path table_name : string) (append : bool)
  (create_index_on : option string) : M string :=
  tn <- lift (sanitize_identifier table_name) ;;
  let size := src_size src in
  if MAX_CSV_SIZE <? size then raise FileTooLarge
  else
    let is_csv_mime :=
      match src_mime src with
      | Some m => String.eqb m "text/csv"
      | None => false
      end in
    if negb is_csv_mime && negb (endswith (lower csv_path) ".csv")
    then raise InvalidFileType
    else
      match src_rows src with
      | [] => raise EmptyInput
      | raw_headers :: reader =>
          let headers := normalize_headers hash raw_headers in
          samples <- lift (read_samples (List.length headers) 20 reader) ;;
          let '(sample_rows, remaining) := samples in
          let columns := infer_columns headers sample_rows in
          connect ;;
          q <- execute (SelectMasterTable tn) ;;
          let table_exists :=
            match fetchone q with
            | Some _ => true
            | None => false
            end in
          if table_exists && negb append then raise TableAlreadyExists
          else
            with_connection
              (import_block tn columns headers sample_rows remaining
                 create_index_on) ;;
            ret tn
      end.

Definition import_csv (hash : string -> Z) (src : CsvSource)
  (csv_path table_name : string) (append : bool)
  (create_index_on : option string) : M unit :=
  tn <- import_main hash src csv_path table_name append create_index_on ;;
  _log_event "IMPORT_CSV" (import_details tn csv_path (src_size src)).

(** [row[col]] on a [sqlite3.Row]: the first column of that name, letter
    case ignored. *)
Fixpoint row_get (columns : list string) (row : list Value) (col : string)
  : Value :=
  match columns, row with
  | c :: cs, v :: vs => if ci_eqb c col then v else row_get cs vs col
  | _, _ => VNull
  end.

Definition write_csv (filepath : string) (header : list string)
  (rows : list (list Value)) : M unit :=
  fun s =>
    (Returned tt,
     add_file {| f_path := filepath; f_header := header; f_rows := rows |} s).

(** Everything in [export_table_to_csv] before its closing
    [self._log_event]. *)
Definition export_main (table_name filepath : string) : M unit :=
  connect ;;
  q <- execute (SelectAllFrom table_name) ;;
  let rows := q_rows q in
  let columns := q_columns q in
  write_csv filepath columns
    (map (fun row => map (fun col => row_get columns row col) columns) rows).

Definition export_table_to_csv (table_name filepath : string) : M unit :=
  export_main table_name filepath ;;
  _log_event "EXPORT_CSV"
    ("Exported table " ++ table_name ++ " to " ++ filepath).


Definition last_file (s : State) : option CsvFile :=
  nth_error (rev (st_files s)) 0.

(** A database file with nothing in it, and the state of a fresh process
    on it. *)
Definition empty_db : DB := {| tables := []; indexes := [] |}.

Definition fresh_state (now : string) : State :=
  {| st_connected := false; st_isolation := None; st_db := empty_db;
     st_tx := None; st_now := now; st_trace := []; st_errlog := [];
     st_files := [] |}.

(** ** Notions used to state the properties *)

Definition audit_table : Table :=
  {| t_name := "audit_log"; t_cols := audit_columns; t_rows := [] |}.

(** The database once the audit table has been added to it. *)
Definition with_audit_table (db : DB) : DB :=
  {| tables := tables db ++ [audit_table]; indexes := indexes db |}.

(** A table named exactly [name] is listed in the schema: what the
    existence check of [import_csv] looks for. *)
Definition table_listed (db : DB) (name : string) : Prop :=
  exists t, In t (tables db) /\ t_name t = name.

(** The file passes every check [import_csv] makes before it looks at the
    database. *)
Definition passes_validation (hash : string -> Z) (src : CsvSource)
  (csv_path : string) : Prop :=
  src_size src <= MAX_CSV_SIZE /\
  (src_mime src = Some "text/csv" \/ endswith (lower csv_path) ".csv" = true) /\
  exists raw_headers reader samples,
    src_rows src = raw_headers :: reader /\
    read_samples (List.length (normalize_headers hash raw_headers)) 20 reader =
      Ok samples.

(** What the engine stores for one CSV row under the given columns: each
    cell trimmed, then converted by its column's affinity. *)
Definition stored_row (columns : list (string * StorageType))
  (row : list string) : list Value :=
  map (fun cv => apply_affinity (decl_of (snd (fst cv))) (strip (snd cv)))
      (combine columns row).

(** The index request of an import job is one the engine accepts: no
    request, or a valid name of one of the columns whose index name is not
    taken by a table. *)
Definition index_request_ok (db : DB) (tn : string) (headers : list string)
  (create_index_on : option string) : Prop :=
  match create_index_on with
  | None => True
  | Some col =>
      col = "" \/
      exists ci, sanitize_identifier col = Ok ci /\
                 (exists h, In h headers /\ ci_eqb h ci = true) /\
                 find_table db ("idx_" ++ tn ++ "_" ++ ci) = None
  end.

(** Every name the statement's text carries matches the identifier
    pattern. *)
Definition stmt_sanitized (stmt : Stmt) : Prop :=
  Forall (fun name => is_identifier name = true) (interpolated stmt).

(** From [s] to [s'] only statements with sanitized names were executed. *)
Definition trace_extends_sanitized (s s' : State) : Prop :=
  exists l, st_trace s' = (st_trace s ++ l)%list /\ Forall stmt_sanitized l.

(** Whatever the state, the computation executes only such statements. *)
Definition issues_sanitized {A : Type} (m : M A) : Prop :=
  forall s, trace_extends_sanitized s (snd (m s)).

(** A database whose last table is [t]. *)
Definition db_with (pre : list Table) (idx : list Index) (t : Table) : DB :=
  {| tables := pre ++ [t]; indexes := idx |}.

(** The table an import creates, holding [rows]. *)
Definition import_table (tn : string) (columns : list (string * StorageType))
  (rows : list (list Value)) : Table :=
  {| t_name := tn;
     t_cols := map (fun c => plain_column (fst c) (snd c)) columns;
     t_rows := rows |}.


(** ** Concrete inputs used by the evaluations below *)

(** The hash secrets CPython derives from [PYTHONHASHSEED=0] and
    [PYTHONHASHSEED=1]. *)
Definition secret_seed0 : HashSecret := {| hs_k0 := 0; hs_k1 := 0 |}.

Definition secret_seed1 : HashSecret :=
  {| hs_k0 := 12598376723466036009; hs_k1 := 16999324916296290386 |}.

(** A file of 86 bytes: the header [a,b], twenty rows [1,2] and a last row
    with one field. *)
Definition short_row_source : CsvSource :=
  {| src_size := 86; src_mime := Some "text/csv";
     src_rows := ["a"; "b"] :: repeat ["1"; "2"] 20 ++ [["3"]] |}.

(** A process whose connection manages transactions (the module's default
    isolation level), connected to an empty database with the audit table
    in place. *)
Definition managed_state (now : string) : State :=
  {| st_connected := true; st_isolation := Some Deferred;
     st_db := {| tables := [ {| t_name := "audit_log";
                                t_cols := audit_columns; t_rows := [] |} ];
                 indexes := [] |};
     st_tx := None; st_now := now; st_trace := []; st_errlog := [];
     st_files := [] |}.

(** A connected process on a database that holds one table whose name is
    not an identifier, next to the audit table. *)
Definition odd_name_state (now : string) : State :=
  {| st_connected := true; st_isolation := None;
     st_db := {| tables := [ {| t_name := "audit_log";
                                t_cols := audit_columns; t_rows := [] |};
                             {| t_name := "my table";
                                t_cols := [plain_column "a" TEXT];
                                t_rows := [[VText "x"]] |} ];
                 indexes := [] |};
     st_tx := None; st_now := now; st_trace := []; st_errlog := [];
     st_files := [] |}.

(** A connected process whose audit table has been dropped; the database
    holds one table [t]. *)
Definition no_audit_state (now : string) : State :=
  {| st_connected := true; st_isolation := None;
     st_db := {| tables := [ {| t_name := "t";
                                t_cols := [plain_column "a" TEXT];
                                t_rows := [[VText "x"]] |} ];
                 indexes := [] |};
     st_tx := None; st_now := now; st_trace := []; st_errlog := [];
     st_files := [] |}.

(** The import of that file into table [t], without append or index. *)
Definition import_short_row (s : State) : Outcome unit * State :=
  import_csv (py_hash secret_seed0) short_row_source "data.csv" "t" false None s.

(** A connected process on a database that holds the audit table and a
    table [t] with one row. *)
Definition table_t_state (now : string) : State :=
  {| st_connected := true; st_isolation := None;
     st_db := {| tables := [ audit_table;
                             {| t_name := "t";
                                t_cols := [plain_column "a" TEXT];
                                t_rows := [[VText "x"]] |} ];
                 indexes := [] |};
     st_tx := None; st_now := now; st_trace := []; st_errlog := [];
     st_files := [] |}.

(** A CSV file with no line at all, and one with a column of integers
    written with leading zeros. *)
Definition empty_source : CsvSource :=
  {| src_size := 0; src_mime := Some "text/csv"; src_rows := [] |}.


(** The file of the specification's scenario: [name,age], [Alice,30] and
    [Bob,] with an empty age. *)
Definition people_source : CsvSource :=
  {| src_size := 23; src_mime := Some "text/csv";
     src_rows := [["name"; "age"]; ["Alice"; "30"]; ["Bob"; ""]] |}.

(** A connected process on a database that holds the audit table and a
    table [People], spelled with a capital, with one row. *)
Definition capital_people_state (now : string) : State :=
  {| st_connected := true; st_isolation := None;
     st_db := {| tables := [ audit_table;
                             {| t_name := "People";
                                t_cols := [plain_column "name" TEXT;
                                           plain_column "age" INTEGER];
                                t_rows := [[VText "Zoe"; VInteger 41]] |} ];
                 indexes := [] |};
     st_tx := None; st_now := now; st_trace := []; st_errlog := [];
     st_files := [] |}.


From Stdlib Require Import Permutation Sorted.

(** ** The rest of DatabaseManager and the command-line guards *)

(** [DatabaseManager.__init__]: the database file name the manager keeps. *)
Definition init_db_path (db_path : string) : string :=
  if negb (endswith db_path ".sqlite") && negb (endswith db_path ".db")
  then db_path ++ ".sqlite"
  else db_path.

(** [DatabaseManager.close]: closing the connection drops what an open
    transaction has not committed. *)
Definition close : M unit :=
  fun s =>
    if st_connected s then
      (Returned tt,
       {| st_connected := false; st_isolation := st_isolation s;
          st_db := committed s; st_tx := None; st_now := st_now s;
          st_trace := st_trace s; st_errlog := st_errlog s;
          st_files := st_files s |})
    else (Returned tt, s).

(** [s[:-1]] *)
Fixpoint drop_last (s : string) : string :=
  match s with
  | EmptyString => EmptyString
  | String c r =>
      match r with
      | EmptyString => EmptyString
      | _ => String c (drop_last r)
      end
  end.

(** [c in s] for a one-character [c]. *)
Fixpoint contains_char (c : ascii) (s : string) : bool :=
  match s with
  | EmptyString => false
  | String d r => Ascii.eqb d c || contains_char c r
  end.

(** The two guards at the top of [cli_create_table]; a statement that
    passes both is handed to the engine. *)
Inductive CreateTableCheck : Type :=
| NotCreateTable
| MultipleStatements
| Submitted.

Definition cli_create_table_check (create_stmt : string) : CreateTableCheck :=
  if negb (startswith (upper (strip create_stmt)) "CREATE TABLE")
  then NotCreateTable
  else if contains_char ";" (drop_last (strip create_stmt))
  then MultipleStatements
  else Submitted.

(** What [cli_query] decides for a query before the [try] block, given
    the answer the user types when asked to confirm (the question is asked
    for dangerous statements only); [Executed] is the case in which the
    query reaches [cur.execute]. *)
Inductive QueryDecision : Type :=
| NotAllowed
| Cancelled
| Executed.

Definition cli_query_decision (query answer : string) : QueryDecision :=
  if negb (is_sql_safe query || is_sql_dangerous query) then NotAllowed
  else if is_sql_dangerous query then
    let confirm := lower (strip answer) in
    if negb (String.eqb confirm "y" || String.eqb confirm "yes")
    then Cancelled
    else Executed
  else Executed.

(** [query[:200]], the details of the audit entry of a query. *)
Definition query_audit_details (query : string) : string :=
  substring 0 200 query.

(** ** Further notions used to state properties *)

(** Tables under any name other than [tn] are found as before. *)
Definition others_kept (tn : string) (db db' : DB) : Prop :=
  forall b, ci_eqb tn b = false -> find_table db' b = find_table db b.

(** Nothing but the database, the trace and the transaction changed, and
    an autocommit connection stays without a transaction. *)
Definition same_session (s s' : State) : Prop :=
  st_connected s' = st_connected s /\
  st_now s' = st_now s /\
  st_files s' = st_files s /\
  st_errlog s' = st_errlog s /\
  st_isolation s' = st_isolation s /\
  (st_isolation s = None -> st_tx s' = st_tx s).

(** The table's column names are distinct and every row has one value per
    column. *)
Definition well_shaped (t : Table) : Prop :=
  has_duplicate (map c_name (t_cols t)) = false /\
  Forall (fun row => List.length row = List.length (t_cols t)) (t_rows t).

(** The order of the inferred types: INTEGER below REAL below TEXT. *)
Definition type_rank (t : StorageType) : nat :=
  match t with
  | INTEGER => 0
  | REAL => 1
  | TEXT => 2
  end.

(** A row of the width the header has. *)
Definition has_width (width : nat) (row : list string) : Prop :=
  List.length row = width.

(** The connection is in autocommit mode with no transaction open, as
    every connection [connect] opens is. *)
Definition autocommit (s : State) : Prop :=
  st_isolation s = None /\ st_tx s = None.



(** From [s] to [s'] the table found under [tn] became the import table
    with [rows], every other table is found as before, and the session is
    the same. *)
Definition advanced (tn name : string) (columns : list (string * StorageType))
  (rows : list (list Value)) (s s' : State) : Prop :=
  find_table (st_db s') tn = Some (import_table name columns rows) /\
  others_kept tn (st_db s) (st_db s') /\
  same_session s s'.




(** ** Further concrete inputs *)


(** A file whose two header cells normalize to the same name. *)
Definition colliding_source : CsvSource :=
  {| src_size := 12; src_mime := Some "text/csv";
     src_rows := [["a b"; "a_b"]; ["1"; "2"]] |}.

(** A file whose second data row is short. *)
Definition early_short_source : CsvSource :=
  {| src_size := 12; src_mime := Some "text/csv";
     src_rows := [["a"; "b"]; ["1"; "2"]; ["3"]] |}.

(** A file over the size limit, and a file the type guess does not know. *)
Definition huge_source : CsvSource :=
  {| src_size := 11000000; src_mime := Some "text/csv";
     src_rows := [["a"]; ["1"]] |}.

Definition untyped_source : CsvSource :=
  {| src_size := 4; src_mime := None; src_rows := [["a"]; ["1"]] |}.


(** Names in ascending byte order. *)
Definition ascending (names : list string) : Prop :=
  LocallySorted (fun a b => String.leb a b = true) names.

(** A database whose only object is an index that has the audit table's
    name. *)
Definition index_named_audit_state (now : string) : State :=
  {| st_connected := false; st_isolation := None;
     st_db := {| tables := [ {| t_name := "t";
                                t_cols := [plain_column "a" TEXT];
                                t_rows := [] |} ];
                 indexes := [ {| i_name := "audit_log"; i_table := "t";
                                 i_column := "a" |} ] |};
     st_tx := None; st_now := now; st_trace := []; st_errlog := [];
     st_files := [] |}.
(** * Properties *)

(** ** Strings and identifiers *)

Ltac by_cases_on_char c :=
  destruct c as [[] [] [] [] [] [] [] []]; vm_compute; try reflexivity;
  try discriminate; auto.

Lemma ident_char_not_space (c : ascii) :
  is_ident_char c = true -> is_space c = false.
Proof. by_cases_on_char c. Qed.

Lemma ident_start_is_char (c : ascii) :
  is_ident_start c = true -> is_ident_char c = true.
Proof. by_cases_on_char c. Qed.

Lemma line_feed_is_space : is_space "010" = true.
Proof. reflexivity. Qed.

Lemma digit_is_ident_char (c : ascii) :
  is_digit c = true -> is_ident_char c = true.
Proof. by_cases_on_char c. Qed.

Lemma is_empty_true (s : string) : is_empty s = true -> s = "".
Proof. destruct s; simpl; congruence. Qed.

Lemma last_char_none (s : string) : last_char s = None -> s = "".
Proof.
  destruct s as [|c r]; simpl; [reflexivity|].
  destruct (last_char r); discriminate.
Qed.

Lemma rstrip_last_char (p : ascii -> bool) (s : string) (c : ascii) :
  last_char (rstrip_with p s) = Some c -> p c = false.
Proof.
  revert c. induction s as [|a r IH]; simpl; intros c H; [discriminate|].
  destruct (p a && is_empty (rstrip_with p r)) eqn:E; simpl in H;
    [discriminate|].
  destruct (last_char (rstrip_with p r)) as [d|] eqn:L.
  - inversion H; subst. now apply IH.
  - inversion H; subst. apply last_char_none in L. rewrite L in E.
    simpl in E. now rewrite andb_true_r in E.
Qed.

Lemma strip_last_char (s : string) (c : ascii) :
  last_char (strip s) = Some c -> is_space c = false.
Proof. apply rstrip_last_char. Qed.

Lemma last_char_smap (f : ascii -> ascii) (s : string) :
  last_char (smap f s) = option_map f (last_char s).
Proof.
  induction s as [|a r IH]; simpl; [reflexivity|].
  rewrite IH. now destruct (last_char r).
Qed.

Lemma ident_tail_sall (s : string) :
  sall is_ident_char s = true -> ident_tail s = true.
Proof.
  induction s as [|a r IH]; simpl; [reflexivity|].
  intros H. apply andb_true_iff in H as [Ha Hr]. rewrite Ha. now apply IH.
Qed.

Lemma ident_tail_no_line_feed (s : string) :
  (forall c, last_char s = Some c -> c <> "010"%char) ->
  ident_tail s = sall is_ident_char s.
Proof.
  induction s as [|a r IH]; simpl; intros H; [reflexivity|].
  destruct (is_ident_char a) eqn:Ha; simpl.
  - apply IH. intros c Hc. apply H. now rewrite Hc.
  - destruct (Ascii.eqb a "010") eqn:Ea; simpl; [|reflexivity].
    destruct r as [|b r']; simpl; [|reflexivity].
    apply Ascii.eqb_eq in Ea. exfalso. now apply (H a).
Qed.

(** Where the string does not end in a line feed, [IDENT_RE.match] is the
    full match of the identifier pattern. *)
Lemma IDENT_RE_match_full (s : string) :
  (forall c, last_char s = Some c -> c <> "010"%char) ->
  IDENT_RE_match s = is_identifier s.
Proof.
  destruct s as [|a r]; simpl; intros H; [reflexivity|].
  destruct (is_ident_start a) eqn:Ha; simpl; [|reflexivity].
  destruct r as [|b r']; [reflexivity|].
  apply ident_tail_no_line_feed. intros c Hc. apply H.
  simpl in *. destruct (last_char r'); congruence.
Qed.

Lemma IDENT_RE_match_strip (s : string) :
  IDENT_RE_match (strip s) = is_identifier (strip s).
Proof.
  apply IDENT_RE_match_full. intros c Hc Heq. subst c.
  apply strip_last_char in Hc. discriminate.
Qed.

Lemma is_identifier_match (s : string) :
  is_identifier s = true -> IDENT_RE_match s = true.
Proof.
  destruct s as [|a r]; simpl; [discriminate|]. intros H.
  apply andb_true_iff in H as [Ha Hr]. rewrite Ha. simpl.
  now apply ident_tail_sall.
Qed.

Lemma rstrip_with_id (p : ascii -> bool) (s : string) :
  sall (fun c => negb (p c)) s = true -> rstrip_with p s = s.
Proof.
  induction s as [|a r IH]; simpl; [reflexivity|]. intros H.
  apply andb_true_iff in H as [Ha Hr]. rewrite (IH Hr).
  apply negb_true_iff in Ha. now rewrite Ha.
Qed.

Lemma sall_impl (p q : ascii -> bool) (s : string) :
  (forall c, p c = true -> q c = true) ->
  sall p s = true -> sall q s = true.
Proof.
  intros Hpq. induction s as [|a r IH]; simpl; [reflexivity|]. intros H.
  apply andb_true_iff in H as [Ha Hr]. now rewrite (Hpq _ Ha), IH.
Qed.

Lemma is_identifier_chars (s : string) :
  is_identifier s = true -> sall is_ident_char s = true.
Proof.
  destruct s as [|a r]; simpl; [discriminate|]. intros H.
  apply andb_true_iff in H as [Ha Hr]. now rewrite (ident_start_is_char _ Ha).
Qed.

Lemma strip_identifier (s : string) : is_identifier s = true -> strip s = s.
Proof.
  intros H. unfold strip, strip_with.
  assert (Hl : lstrip_with is_space s = s).
  { destruct s as [|a r]; simpl in *; [reflexivity|].
    apply andb_true_iff in H as [Ha _].
    now rewrite (ident_char_not_space _ (ident_start_is_char _ Ha)). }
  rewrite Hl. apply rstrip_with_id.
  apply (sall_impl is_ident_char); [|now apply is_identifier_chars].
  intros c Hc. now rewrite (ident_char_not_space _ Hc).
Qed.

Lemma sall_app (p : ascii -> bool) (a b : string) :
  sall p (a ++ b) = sall p a && sall p b.
Proof.
  induction a as [|c r IH]; simpl; [reflexivity|].
  now rewrite IH, andb_assoc.
Qed.

Lemma sall_digits_uint (d : Decimal.uint) :
  sall is_digit (NilEmpty.string_of_uint d) = true.
Proof. induction d; simpl; auto. Qed.

Lemma sall_digits_str_nat (n : nat) : sall is_digit (str_nat n) = true.
Proof.
  unfold str_nat, NilZero.string_of_uint.
  destruct (Nat.to_uint n) eqn:E; try reflexivity;
    rewrite <- E; apply sall_digits_uint.
Qed.

Lemma sall_digits_str_Z (z : Z) : 0 <= z -> sall is_digit (str_Z z) = true.
Proof.
  intros Hz. unfold str_Z, NilZero.string_of_int.
  destruct z as [|p|p]; simpl; [reflexivity| |lia].
  unfold NilZero.string_of_uint.
  destruct (Pos.to_uint p) eqn:E; try reflexivity;
    rewrite <- E; apply sall_digits_uint.
Qed.

Lemma sub_non_ident_chars (s : string) :
  sall is_ident_char (sub_non_ident s) = true.
Proof.
  unfold sub_non_ident.
  induction s as [|a r IH]; simpl; [reflexivity|].
  rewrite IH, andb_true_r. unfold is_ident_char.
  destruct (is_alpha a || is_digit a || Ascii.eqb a "_") eqn:E;
    [exact E | reflexivity].
Qed.

Lemma sub_non_ident_id (s : string) :
  sall is_ident_char s = true -> sub_non_ident s = s.
Proof.
  unfold sub_non_ident.
  induction s as [|a r IH]; simpl; [reflexivity|]. intros H.
  apply andb_true_iff in H as [Ha Hr]. rewrite (IH Hr).
  unfold is_ident_char in Ha. now rewrite Ha.
Qed.

Lemma replace_no_change (a b : ascii) (s : string) :
  sall (fun c => negb (Ascii.eqb c a)) s = true -> replace a b s = s.
Proof.
  unfold replace.
  induction s as [|c r IH]; simpl; [reflexivity|]. intros H.
  apply andb_true_iff in H as [Hc Hr]. rewrite (IH Hr).
  apply negb_true_iff in Hc. now rewrite Hc.
Qed.

(** ** sanitize_identifier *)

(** C7.  [sanitize_identifier raw] fails with [InvalidIdentifier] exactly
    when the trimmed input does not match the identifier pattern, and
    otherwise returns the trimmed input; a string that already matches the
    pattern is returned as it is. *)
Theorem sanitize_identifier_spec (raw : string) :
  (sanitize_identifier raw = Err InvalidIdentifier <->
     is_identifier (strip raw) = false) /\
  (is_identifier (strip raw) = true ->
     sanitize_identifier raw = Ok (strip raw)) /\
  (is_identifier raw = true -> sanitize_identifier raw = Ok raw).
Proof.
  unfold sanitize_identifier. rewrite IDENT_RE_match_strip.
  repeat split.
  - destruct (is_identifier (strip raw)); simpl; congruence.
  - intros H. now rewrite H.
  - intros H. now rewrite H.
  - intros H. rewrite (strip_identifier _ H). now rewrite H.
Qed.

Lemma sanitize_identifier_spec_witness :
  is_identifier (strip "  people ") = true /\
  sanitize_identifier "  people " = Ok "people" /\
  is_identifier "col_1" = true /\
  sanitize_identifier "col_1" = Ok "col_1".
Proof.
  split; [reflexivity|]. split.
  - apply (proj1 (proj2 (sanitize_identifier_spec "  people "))). reflexivity.
  - split; [reflexivity|].
    apply (proj2 (proj2 (sanitize_identifier_spec "col_1"))). reflexivity.
Defined.

Lemma sanitize_identifier_ok (raw tn : string) :
  sanitize_identifier raw = Ok tn -> is_identifier tn = true /\ tn = strip raw.
Proof.
  unfold sanitize_identifier. rewrite IDENT_RE_match_strip.
  destruct (is_identifier (strip raw)) eqn:E; simpl; [|discriminate].
  intros H. inversion H; subst. auto.
Qed.

(** ** Header normalization *)

Lemma header_first_pass_last (i : nat) (h : string) (c : ascii) :
  last_char (header_first_pass i h) = Some c -> c <> "010"%char.
Proof.
  unfold header_first_pass.
  destruct (is_empty (replace " " "_" (strip h))) eqn:E.
  - intros H Hc. subst c.
    assert (Hd : sall is_ident_char ("col" ++ str_nat i) = true).
    { rewrite sall_app. simpl.
      apply (sall_impl is_digit); [apply digit_is_ident_char|].
      apply sall_digits_str_nat. }
    revert H Hd. generalize ("col" ++ str_nat i). intros s.
    induction s as [|a r IH]; simpl; [discriminate|].
    intros H Hd. apply andb_true_iff in Hd as [Ha Hr].
    destruct (last_char r) eqn:L.
    + now apply IH.
    + inversion H; subst. discriminate.
  - unfold replace. rewrite last_char_smap.
    destruct (last_char (strip h)) as [d|] eqn:L; simpl; [|discriminate].
    apply strip_last_char in L. intros H Hc. inversion H; subst.
    destruct (Ascii.eqb d " ") eqn:Ed; [discriminate|].
    now rewrite H1, line_feed_is_space in L.
Qed.

Lemma header_second_pass_valid (hash : string -> Z) (h : string) :
  (forall c, last_char h = Some c -> c <> "010"%char) ->
  is_identifier (header_second_pass hash h) = true.
Proof.
  intros Hlast. unfold header_second_pass.
  destruct (IDENT_RE_match h) eqn:E; simpl.
  - now rewrite <- (IDENT_RE_match_full h Hlast).
  - destruct (IDENT_RE_match (sub_non_ident h)) eqn:E2; simpl.
    + pose proof (sub_non_ident_chars h) as Hc.
      destruct (sub_non_ident h) as [|a r]; simpl in *; [discriminate|].
      apply andb_true_iff in E2 as [Ha _]. rewrite Ha. simpl.
      now apply andb_true_iff in Hc as [_ Hr].
    + simpl. apply (sall_impl is_digit); [apply digit_is_ident_char|].
      apply sall_digits_str_Z. apply Z.land_nonneg. right. lia.
Qed.

Lemma normalize_headers_cells (hash : string -> Z) (headers : list string) :
  normalize_headers hash headers =
  map (fun ih => normalizeHeader hash (snd ih) (fst ih)) (enumerate headers).
Proof. unfold normalize_headers. now rewrite map_map. Qed.

Lemma normalizeHeader_identifier (hash : string -> Z) (raw : string) (i : nat) :
  is_identifier (normalizeHeader hash raw i) = true.
Proof. apply header_second_pass_valid, header_first_pass_last. Qed.

Lemma normalize_headers_identifiers (hash : string -> Z)
  (headers : list string) :
  Forall (fun h => is_identifier h = true) (normalize_headers hash headers).
Proof.
  rewrite normalize_headers_cells. apply Forall_forall. intros h Hin.
  apply in_map_iff in Hin as [[i raw] [<- _]].
  apply normalizeHeader_identifier.
Qed.

(** C5.  For every raw header and position, [normalizeHeader] (a total
    function: nothing in it can raise) returns a string that matches the
    identifier pattern, whatever the hash function is; so does every cell
    of the header row [import_csv] normalizes. *)
Theorem normalizeHeader_valid (hash : string -> Z) :
  (forall (raw : string) (i : nat),
     is_identifier (normalizeHeader hash raw i) = true) /\
  (forall headers : list string,
     Forall (fun h => is_identifier h = true) (normalize_headers hash headers)).
Proof.
  split; [apply normalizeHeader_identifier | apply normalize_headers_identifiers].
Qed.

(** ** SQL safety classifier *)

Lemma any_prefix_iff (prefixes : list string) (sql : string) :
  any_prefix prefixes sql = true <->
  exists k, In k prefixes /\ startswith sql k = true.
Proof. unfold any_prefix. apply existsb_exists. Qed.

Lemma is_sql_safe_iff (sql : string) :
  is_sql_safe sql = true <-> leading_keyword_in SAFE_SQL_PREFIXES sql.
Proof. apply any_prefix_iff. Qed.

Lemma is_sql_dangerous_iff (sql : string) :
  is_sql_dangerous sql = true <-> leading_keyword_in DANGEROUS_SQL_PREFIXES sql.
Proof. apply any_prefix_iff. Qed.

(** No string begins with a safe keyword and with a dangerous one: their
    first letters differ. *)
Lemma safe_not_dangerous (u : string) :
  any_prefix SAFE_SQL_PREFIXES u = true ->
  any_prefix DANGEROUS_SQL_PREFIXES u = false.
Proof.
  destruct u as [|c r]; [discriminate|].
  unfold any_prefix.
  destruct c as [[] [] [] [] [] [] [] []]; simpl; try discriminate;
    reflexivity.
Qed.

(** C2.  The class of a statement is fixed by the keyword it begins with
    after trimming, letter case ignored: a member of the safe set gives
    [Safe], a member of the dangerous set gives [Dangerous], anything else
    gives [Disallowed]; the three cases exclude one another, and the five
    statements of the specification fall where it says. *)
Theorem classify_by_leading_keyword :
  (forall sql,
     (leading_keyword_in SAFE_SQL_PREFIXES sql -> classify sql = Safe) /\
     (leading_keyword_in DANGEROUS_SQL_PREFIXES sql ->
        classify sql = Dangerous) /\
     (~ leading_keyword_in SAFE_SQL_PREFIXES sql ->
      ~ leading_keyword_in DANGEROUS_SQL_PREFIXES sql ->
        classify sql = Disallowed) /\
     ~ (leading_keyword_in SAFE_SQL_PREFIXES sql /\
        leading_keyword_in DANGEROUS_SQL_PREFIXES sql)) /\
  (forall sql sql',
     upper (strip sql) = upper (strip sql') -> classify sql = classify sql') /\
  classify "select * from t" = Safe /\
  classify "  SELECT 1" = Safe /\
  classify "DROP TABLE t" = Dangerous /\
  classify "insert into t values (1)" = Dangerous /\
  classify "ATTACH DATABASE x" = Disallowed.
Proof.
  split; [|split; [|repeat split; reflexivity]].
  - intros sql. rewrite <- is_sql_safe_iff, <- is_sql_dangerous_iff.
    unfold classify.
    assert (Hd : is_sql_safe sql = true -> is_sql_dangerous sql = false)
      by apply safe_not_dangerous.
    destruct (is_sql_safe sql) eqn:Es, (is_sql_dangerous sql) eqn:Ed;
      simpl; repeat split; try congruence; intros; try tauto;
      try (specialize (Hd eq_refl); congruence);
      intros [H1 H2]; discriminate.
  - intros sql sql' H. unfold classify, is_sql_safe, is_sql_dangerous.
    now rewrite H.
Qed.

Lemma classify_by_leading_keyword_witness :
  leading_keyword_in SAFE_SQL_PREFIXES "  pragma table_info(t)" /\
  classify "  pragma table_info(t)" = Safe /\
  leading_keyword_in DANGEROUS_SQL_PREFIXES "Create Table t (a)" /\
  classify "Create Table t (a)" = Dangerous /\
  classify "VACUUM" = Disallowed /\
  classify "select 1" = classify " SELECT 1 ".
Proof.
  assert (Hs : leading_keyword_in SAFE_SQL_PREFIXES "  pragma table_info(t)").
  { exists "PRAGMA". split; [simpl; auto | reflexivity]. }
  assert (Hd : leading_keyword_in DANGEROUS_SQL_PREFIXES "Create Table t (a)").
  { exists "CREATE TABLE". split; [simpl; tauto | reflexivity]. }
  split; [exact Hs|]. split.
  - exact (proj1 (proj1 classify_by_leading_keyword _) Hs).
  - split; [exact Hd|]. split.
    + exact (proj1 (proj2 (proj1 classify_by_leading_keyword _)) Hd).
    + split.
      * apply (proj1 (proj2 (proj2 (proj1 classify_by_leading_keyword "VACUUM")))).
        -- intros [k [Hin Hk]]. simpl in Hin.
           repeat (destruct Hin as [<-|Hin]; [discriminate|]). exact Hin.
        -- intros [k [Hin Hk]]. simpl in Hin.
           repeat (destruct Hin as [<-|Hin]; [discriminate|]). exact Hin.
      * apply (proj1 (proj2 classify_by_leading_keyword)). reflexivity.
Defined.

(** ** Type inference *)

Lemma eqb_empty (v : string) : String.eqb v "" = is_empty v.
Proof. now destruct v. Qed.

Lemma consistent_types_from_scan (t : StorageType) (samples : list string) :
  consistent_types_from t samples = inferType_scan t samples.
Proof.
  revert t. induction samples as [|v rest IH]; intros t; simpl; [reflexivity|].
  unfold sample_kind. rewrite eqb_empty.
  destruct (is_empty v); [reflexivity|].
  destruct (py_int_ok v); [apply IH|].
  destruct (py_float_ok v); [|reflexivity].
  rewrite IH. now destruct t.
Qed.

Lemma scan_text (t : StorageType) (samples : list string) :
  inferType_scan t samples = TEXT <-> t = TEXT \/ Exists forces_text samples.
Proof.
  revert t. induction samples as [|v rest IH]; intros t; simpl.
  - split; [auto|]. intros [H|H]; [exact H | inversion H].
  - unfold forces_text at 1. destruct (sample_kind v) eqn:K.
    + split; [intros _; right; left; auto | reflexivity].
    + rewrite IH. split; intros [H|H]; auto.
      inversion H as [? ? [H1|H1]|]; subst; try congruence. now right.
    + rewrite IH. split.
      * intros [H|H]; [left; destruct t; simpl in H; congruence | auto].
      * intros [H|H]; [left; now subst |].
        inversion H as [? ? [H1|H1]|]; subst; try congruence. now right.
    + split; [intros _; right; left; auto | reflexivity].
Qed.

Lemma scan_integer (t : StorageType) (samples : list string) :
  inferType_scan t samples = INTEGER <->
  t = INTEGER /\ Forall (fun v => sample_kind v = KInt) samples.
Proof.
  revert t. induction samples as [|v rest IH]; intros t; simpl.
  - split; [auto | tauto].
  - destruct (sample_kind v) eqn:K.
    + split; [discriminate|]. intros [_ H]. inversion H; congruence.
    + rewrite IH. split; intros [H1 H2]; split; auto.
      now inversion H2.
    + rewrite IH. split.
      * intros [H _]. destruct t; discriminate.
      * intros [_ H]. inversion H; congruence.
    + split; [discriminate|]. intros [_ H]. inversion H; congruence.
Qed.

Lemma scan_real (t : StorageType) (samples : list string) :
  inferType_scan t samples = REAL <->
  Forall numeric samples /\
  (t = REAL \/ t = INTEGER /\ Exists (fun v => sample_kind v = KFloat) samples).
Proof.
  revert t. induction samples as [|v rest IH]; intros t; simpl.
  - split.
    + intros ->. auto.
    + intros [_ [H|[_ H]]]; [exact H | inversion H].
  - unfold numeric at 1. destruct (sample_kind v) eqn:K.
    + split; [discriminate|]. intros [H _].
      inversion H as [|? ? [H1|H1]]; congruence.
    + rewrite IH. split.
      * intros [H1 H2]. split; [constructor; auto|].
        destruct H2 as [H2|[H2 H3]]; auto.
      * intros [H1 H2]. inversion H1 as [|? ? _ Hrest]; subst.
        split; [assumption|].
        destruct H2 as [H2|[H2 Hex]]; auto.
        right. split; [assumption|]. inversion Hex; subst; [congruence|auto].
    + rewrite IH. split.
      * intros [H1 H2]. split; [constructor; auto|].
        destruct t; simpl in H2; destruct H2 as [H2|[H2 _]];
          try discriminate; auto.
      * intros [H1 H2]. inversion H1 as [|? ? _ Hrest]; subst.
        split; [assumption|].
        destruct H2 as [->|[-> _]]; simpl; auto.
    + split; [discriminate|]. intros [H _].
      inversion H as [|? ? [H1|H1]]; congruence.
Qed.

(** C3.  [consistent_types] is the specification's [inferType]: it starts
    from INTEGER and scans the samples in order; an empty string or a value
    that parses as no number ends the scan with TEXT, an integer leaves the
    candidate as it is, a float that is not an integer promotes INTEGER to
    REAL, and REAL is never demoted.  The outcome is thus TEXT exactly when
    some sample is empty or not a number, INTEGER exactly when every sample
    is an integer, and REAL otherwise; the five examples follow. *)
Theorem consistent_types_is_inferType :
  (forall samples, consistent_types samples = inferType_spec samples) /\
  (forall samples, consistent_types_from REAL samples <> INTEGER) /\
  (forall samples,
     (consistent_types samples = TEXT <-> Exists forces_text samples) /\
     (consistent_types samples = INTEGER <->
        Forall (fun v => sample_kind v = KInt) samples) /\
     (consistent_types samples = REAL <->
        Forall numeric samples /\
        Exists (fun v => sample_kind v = KFloat) samples)) /\
  consistent_types [] = INTEGER /\
  consistent_types ["1"; "2"; "3"] = INTEGER /\
  consistent_types ["1"; "2.5"] = REAL /\
  consistent_types ["1"; ""] = TEXT /\
  consistent_types ["1"; "abc"] = TEXT.
Proof.
  split; [|split; [|split; [|repeat split; reflexivity]]].
  - intros samples. apply consistent_types_from_scan.
  - intros samples H. rewrite consistent_types_from_scan in H.
    apply scan_integer in H as [H _]. discriminate.
  - intros samples. unfold consistent_types.
    rewrite consistent_types_from_scan. repeat split.
    + intros H. apply scan_text in H as [H|H]; [discriminate | exact H].
    + intros H. apply scan_text. now right.
    + intros H. now apply scan_integer in H as [_ H].
    + intros H. now apply scan_integer.
    + now apply scan_real in H as [H _].
    + apply scan_real in H as [_ [H|[_ H]]]; [discriminate | exact H].
    + intros [H1 H2]. apply scan_real. auto.
Qed.

(** ** The hash fallback across processes *)

(** C6.  The fallback name is built from the interpreter's [hash], which is
    keyed by the process's hash secret: for the header [1abc] a process
    started with [PYTHONHASHSEED=0] names the column [col_53308], one
    started with [PYTHONHASHSEED=1] names it [col_5305]. *)
Theorem hash_fallback_varies_with_process :
  normalizeHeader (py_hash secret_seed0) "1abc" 0 = "col_53308" /\
  normalizeHeader (py_hash secret_seed1) "1abc" 0 = "col_5305" /\
  normalizeHeader (py_hash secret_seed0) "1abc" 0 <>
  normalizeHeader (py_hash secret_seed1) "1abc" 0.
Proof.
  assert (H0 : normalizeHeader (py_hash secret_seed0) "1abc" 0 = "col_53308")
    by (vm_compute; reflexivity).
  assert (H1 : normalizeHeader (py_hash secret_seed1) "1abc" 0 = "col_5305")
    by (vm_compute; reflexivity).
  rewrite H0, H1. repeat split. discriminate.
Qed.

(** ** Failure after insertion has begun *)

(** C1.  The connection is opened with [isolation_level=None], so no
    transaction is ever open and leaving the [with self.conn:] block on an
    exception restores nothing.  Importing the 21-row file whose last row is
    short into a fresh database raises the row-length error of the
    streaming phase and leaves table [t] in the database, created and
    holding the twenty rows inserted before the failure. *)
Theorem import_failure_keeps_inserted_rows :
  let r := import_short_row (fresh_state "now") in
  fst r = Raised RowLengthMismatch /\
  st_tx (snd r) = None /\
  exists t,
    find_table (committed (snd r)) "t" = Some t /\
    t_rows t = repeat [VInteger 1; VInteger 2] 20.
Proof.
  vm_compute. split; [reflexivity|]. split; [reflexivity|].
  eexists. split; reflexivity.
Qed.

(** The same import through a connection that manages transactions: the
    rows are rolled back (the table itself stays, created outside the
    transaction). *)
Lemma import_failure_rolls_back_when_managed :
  let r := import_short_row (managed_state "now") in
  fst r = Raised RowLengthMismatch /\
  exists t,
    find_table (committed (snd r)) "t" = Some t /\ t_rows t = [].
Proof.
  vm_compute. split; [reflexivity|]. eexists. split; reflexivity.
Qed.

(** Without a transaction open, leaving a [with self.conn:] block changes
    nothing, whether the body failed or not. *)
Lemma conn_exit_autocommit (failed : bool) (s : State) :
  st_tx s = None -> conn_exit failed s = s.
Proof. unfold conn_exit. now intros ->. Qed.

(** ** Audit failures *)

Lemma audit_write_failure (ev details : string) (s : State) (e : Error) :
  fst (audit_write ev details s) = Raised e ->
  committed (snd (audit_write ev details s)) = committed s /\
  st_errlog (snd (audit_write ev details s)) = st_errlog s /\
  st_files (snd (audit_write ev details s)) = st_files s.
Proof.
  unfold audit_write, with_connection, bind, execute, ret.
  destruct (st_connected s) eqn:Hc; simpl; [|auto].
  destruct s as [conn iso db tx now trace errlog files]. simpl in *.
  destruct iso as [lvl|], tx as [snapshot|]; simpl;
    destruct (insert_into now db "audit_log" ["event_type"; "details"]
                [ev; details]) eqn:Hi; simpl; try discriminate; auto.
Qed.

Lemma _log_event_returns (ev details : string) (s : State) :
  fst (_log_event ev details s) = Returned tt.
Proof.
  unfold _log_event, try_except, log_error.
  destruct (audit_write ev details s) as [[[]|e] s'] eqn:E; reflexivity.
Qed.

Lemma _log_event_failure (ev details : string) (s : State) (e : Error) :
  fst (audit_write ev details s) = Raised e ->
  fst (_log_event ev details s) = Returned tt /\
  committed (snd (_log_event ev details s)) = committed s /\
  st_errlog (snd (_log_event ev details s)) = (st_errlog s ++ [e])%list /\
  st_files (snd (_log_event ev details s)) = st_files s.
Proof.
  intros H. destruct (audit_write_failure _ _ _ _ H) as [Hc [Hl Hf]].
  unfold _log_event, try_except, log_error.
  destruct (audit_write ev details s) as [[[]|e'] s'] eqn:E; simpl in *;
    [discriminate|].
  inversion H; subst. unfold committed in *. simpl. rewrite Hl. auto.
Qed.

(** C10.  [_log_event] never raises.  When the audit row cannot be written
    after the work of an import or an export has completed, the error goes
    to the error log, the operation still returns to its caller, and what
    is committed in the database and what was written to disk are what the
    completed work left. *)
Theorem audit_failure_is_logged_not_raised :
  (forall ev details s, fst (_log_event ev details s) = Returned tt) /\
  (forall hash src csv_path table_name append create_index_on s tn s1 e,
     import_main hash src csv_path table_name append create_index_on s =
       (Returned tn, s1) ->
     fst (audit_write "IMPORT_CSV"
            (import_details tn csv_path (src_size src)) s1) = Raised e ->
     let r := import_csv hash src csv_path table_name append create_index_on s in
     fst r = Returned tt /\
     committed (snd r) = committed s1 /\
     st_errlog (snd r) = (st_errlog s1 ++ [e])%list) /\
  (forall table_name filepath s s1 e,
     export_main table_name filepath s = (Returned tt, s1) ->
     fst (audit_write "EXPORT_CSV"
            ("Exported table " ++ table_name ++ " to " ++ filepath) s1) =
       Raised e ->
     let r := export_table_to_csv table_name filepath s in
     fst r = Returned tt /\
     committed (snd r) = committed s1 /\
     st_files (snd r) = st_files s1 /\
     st_errlog (snd r) = (st_errlog s1 ++ [e])%list).
Proof.
  split; [apply _log_event_returns|]. split.
  - intros hash src csv_path table_name append create_index_on s tn s1 e Hm Ha.
    unfold import_csv, bind. rewrite Hm.
    destruct (_log_event_failure _ _ _ _ Ha) as [H1 [H2 [H3 _]]]. auto.
  - intros table_name filepath s s1 e Hm Ha.
    unfold export_table_to_csv, bind. rewrite Hm.
    destruct (_log_event_failure _ _ _ _ Ha) as [H1 [H2 [H3 H4]]]. auto.
Qed.

Lemma audit_failure_is_logged_not_raised_witness :
  let s := no_audit_state "now" in
  let r := export_table_to_csv "t" "out.csv" s in
  fst (export_main "t" "out.csv" s) = Returned tt /\
  fst r = Returned tt /\
  committed (snd r) = committed (snd (export_main "t" "out.csv" s)) /\
  st_errlog (snd r) = [StorageError].
Proof.
  pose (s := no_audit_state "now").
  assert (Hm : export_main "t" "out.csv" s =
               (Returned tt, snd (export_main "t" "out.csv" s)))
    by (vm_compute; reflexivity).
  assert (Ha : fst (audit_write "EXPORT_CSV"
                      ("Exported table " ++ "t" ++ " to " ++ "out.csv")
                      (snd (export_main "t" "out.csv" s))) =
               Raised StorageError)
    by (vm_compute; reflexivity).
  destruct (proj2 (proj2 audit_failure_is_logged_not_raised)
              "t" "out.csv" s _ StorageError Hm Ha) as [H1 [H2 [H3 H4]]].
  split; [vm_compute; reflexivity|]. split; [exact H1|].
  split; [exact H2|]. exact H4.
Defined.

(** ** Connecting *)

Lemma create_audit_table_cases (db : DB) :
  create_table_if_not_exists db "audit_log" audit_columns =
  match find_table db "audit_log" with
  | Some _ => Ok db
  | None =>
      match find_index db "audit_log" with
      | Some _ => Err StorageError
      | None => Ok (with_audit_table db)
      end
  end.
Proof. reflexivity. Qed.

Lemma connect_outcome (s : State) :
  (fst (connect s) = Returned tt -> st_connected (snd (connect s)) = true) /\
  (st_db (snd (connect s)) = st_db s \/
   st_connected s = false /\ find_table (st_db s) "audit_log" = None /\
   st_db (snd (connect s)) = with_audit_table (st_db s)) /\
  st_files (snd (connect s)) = st_files s /\
  st_now (snd (connect s)) = st_now s /\
  (st_tx s = None -> st_tx (snd (connect s)) = None).
Proof.
  unfold connect. destruct (st_connected s) eqn:Hc; simpl; [auto|].
  unfold bind, open_connection, _create_audit_table, with_connection, bind,
    execute, ret. cbn -[create_table_if_not_exists].
  rewrite create_audit_table_cases.
  destruct (find_table (st_db s) "audit_log") eqn:Ht; simpl; [auto 6|].
  destruct (find_index (st_db s) "audit_log") eqn:Hi; simpl.
  - repeat split; auto; discriminate.
  - repeat split; auto.
Qed.

Lemma connect_keeps_tables (s : State) (t : Table) :
  In t (tables (st_db s)) -> In t (tables (st_db (snd (connect s)))).
Proof.
  intros H. destruct (connect_outcome s) as [_ [[->|[_ [_ ->]]] _]]; auto.
  simpl. apply in_or_app. now left.
Qed.

Lemma execute_returns (stmt : Stmt) (s : State) (db' : DB) (q : QueryResult) :
  st_connected s = true ->
  run_stmt (st_now s) (st_db s) stmt = Ok (db', q) ->
  exists s', execute stmt s = (Returned q, s') /\
             st_db s' = db' /\ st_connected s' = true /\
             st_now s' = st_now s /\ st_files s' = st_files s /\
             st_errlog s' = st_errlog s.
Proof.
  intros Hc Hr. unfold execute. rewrite Hc. simpl.
  destruct (st_isolation s), (st_tx s), (is_dml stmt); simpl;
    rewrite Hr; eexists; repeat split; simpl; auto.
Qed.

(** ** Importing into an existing table without append *)

Lemma listed_table_is_fetched (db : DB) (name : string) :
  table_listed db name ->
  exists row, hd_error
    (map (fun t => [VText (t_name t)])
       (filter (fun t => String.eqb (t_name t) name) (tables db))) = Some row.
Proof.
  intros [t [Hin Hn]].
  assert (Hf : In t (filter (fun t => String.eqb (t_name t) name) (tables db))).
  { apply filter_In. split; [exact Hin|]. rewrite Hn. apply String.eqb_refl. }
  destruct (filter (fun t => String.eqb (t_name t) name) (tables db));
    [contradiction|]. simpl. eauto.
Qed.

(** [import_main] step by step. *)
Lemma import_main_steps (hash : string -> Z) (src : CsvSource)
  (csv_path table_name : string) (append : bool)
  (create_index_on : option string) (s : State) :
  import_main hash src csv_path table_name append create_index_on s =
  match sanitize_identifier table_name with
  | Err e => (Raised e, s)
  | Ok tn =>
      if MAX_CSV_SIZE <? src_size src then (Raised FileTooLarge, s)
      else if negb match src_mime src with
                   | Some m => String.eqb m "text/csv"
                   | None => false
                   end && negb (endswith (lower csv_path) ".csv")
      then (Raised InvalidFileType, s)
      else
        match src_rows src with
        | [] => (Raised EmptyInput, s)
        | raw_headers :: reader =>
            let headers := normalize_headers hash raw_headers in
            match read_samples (List.length headers) 20 reader with
            | Err e => (Raised e, s)
            | Ok (sample_rows, remaining) =>
                match connect s with
                | (Raised e, s1) => (Raised e, s1)
                | (Returned _, s1) =>
                    match execute (SelectMasterTable tn) s1 with
                    | (Raised e, s2) => (Raised e, s2)
                    | (Returned q, s2) =>
                        if match fetchone q with
                           | Some _ => true
                           | None => false
                           end && negb append
                        then (Raised TableAlreadyExists, s2)
                        else
                          match with_connection
                                  (import_block tn
                                     (infer_columns headers sample_rows)
                                     headers sample_rows remaining
                                     create_index_on) s2 with
                          | (Returned _, s3) => (Returned tn, s3)
                          | (Raised e, s3) => (Raised e, s3)
                          end
                    end
                end
            end
        end
  end.
Proof.
  unfold import_main, bind, lift, ret, raise.
  destruct (sanitize_identifier table_name); [|reflexivity].
  destruct (MAX_CSV_SIZE <? src_size src); [reflexivity|].
  match goal with
  | |- context [if ?c then (fun s => (Raised InvalidFileType, s)) else _] =>
      destruct c
  end; [reflexivity|].
  destruct (src_rows src); [reflexivity|]. cbv zeta.
  destruct (read_samples _ 20 _) as [[sample_rows remaining]|]; [|reflexivity].
  destruct (connect s) as [[[]|] s1]; [|reflexivity].
  destruct (execute (SelectMasterTable a) s1) as [[q|] s2]; [|reflexivity].
  destruct (match fetchone q with Some _ => true | None => false end
            && negb append); [reflexivity|].
  destruct (with_connection _ s2) as [[[]|] s3]; reflexivity.
Qed.

(** The existence check at work.  An import without append into a table
    that the schema lists under exactly the requested name, byte for byte,
    always fails and leaves every table as it was (the only change the
    database can see is the audit table that a first connection adds).
    The failure is [TableAlreadyExists] whenever the file passes the
    earlier validation and the connection opens; a file that fails
    validation is refused with that validation's error first. *)
Theorem import_into_existing_table_fails
  (hash : string -> Z) (src : CsvSource) (csv_path table_name : string)
  (create_index_on : option string) (s : State) (tn : string) :
  sanitize_identifier table_name = Ok tn ->
  table_listed (st_db s) tn ->
  let r := import_csv hash src csv_path table_name false create_index_on s in
  (exists e, fst r = Raised e) /\
  (st_db (snd r) = st_db s \/
   st_connected s = false /\ find_table (st_db s) "audit_log" = None /\
   st_db (snd r) = with_audit_table (st_db s)) /\
  (forall t, In t (tables (st_db s)) -> In t (tables (st_db (snd r)))) /\
  (passes_validation hash src csv_path ->
   fst (connect s) = Returned tt ->
   fst r = Raised TableAlreadyExists).
Proof.
  intros Hname Hlisted.
  assert (Hmain :
    let m := import_main hash src csv_path table_name false create_index_on s in
    (exists e, fst m = Raised e) /\
    (st_db (snd m) = st_db s \/
     st_connected s = false /\ find_table (st_db s) "audit_log" = None /\
     st_db (snd m) = with_audit_table (st_db s)) /\
    (passes_validation hash src csv_path ->
     fst (connect s) = Returned tt ->
     fst m = Raised TableAlreadyExists)).
  { cbv zeta. rewrite import_main_steps, Hname. unfold passes_validation.
    destruct (MAX_CSV_SIZE <? src_size src) eqn:Hsize.
    { cbn [fst snd]. split; [eauto|]. split; [auto|].
      intros [H _]. apply Z.ltb_lt in Hsize. lia. }
    match goal with
    | |- context [if ?c then (Raised InvalidFileType, s) else _] =>
        destruct c eqn:Htype
    end.
    { cbn [fst snd]. split; [eauto|]. split; [auto|].
      intros [_ [[H|H] _]] _; apply andb_true_iff in Htype as [H1 H2].
      - rewrite H, String.eqb_refl in H1. discriminate.
      - rewrite H in H2. discriminate. }
    destruct (src_rows src) as [|raw_headers reader] eqn:Hrows.
    { cbn [fst snd]. split; [eauto|]. split; [auto|].
      intros [_ [_ [h [rd [sm [H _]]]]]]. discriminate. }
    cbv zeta.
    destruct (read_samples (List.length (normalize_headers hash raw_headers))
                20 reader) as [[sample_rows remaining]|e] eqn:Hsamples.
    2:{ cbn [fst snd]. split; [eauto|]. split; [auto|].
        intros [_ [_ [h [rd [sm [H1 H2]]]]]]. injection H1 as Ha Hb.
        rewrite <- Ha, <- Hb in H2. rewrite Hsamples in H2. discriminate. }
    destruct (connect_outcome s) as [Hconn [Hdb _]].
    destruct (connect s) as [[[]|e] s1] eqn:Hc; cbn [fst snd] in Hconn, Hdb.
    2:{ cbn [fst snd]. split; [eauto|]. split; [exact Hdb|].
        intros _ H. discriminate. }
    specialize (Hconn eq_refl).
    assert (Hl1 : table_listed (st_db s1) tn).
    { destruct Hlisted as [t [Hin Hn]]. exists t. split; [|exact Hn].
      pose proof (connect_keeps_tables s t Hin) as Hk.
      now rewrite Hc in Hk. }
    destruct (listed_table_is_fetched _ _ Hl1) as [row Hrow].
    destruct (execute_returns (SelectMasterTable tn) s1 _ _ Hconn eq_refl)
      as [s2 [He [Hdb2 _]]].
    rewrite He. unfold fetchone. cbn [q_rows]. rewrite Hrow.
    cbn [andb negb fst snd]. split; [eauto|]. split; [|reflexivity].
    rewrite Hdb2. exact Hdb. }
  cbv zeta in Hmain. destruct Hmain as [[e He] [Hdb Hconf]].
  unfold import_csv, bind.
  destruct (import_main hash src csv_path table_name false create_index_on s)
    as [[tn'|e'] s'] eqn:Hm; cbn [fst snd] in *; [discriminate|].
  split; [eauto|]. split; [exact Hdb|]. split.
  - intros t Hin. destruct Hdb as [->|[_ [_ ->]]]; [exact Hin|].
    simpl. apply in_or_app. now left.
  - intros Hv Hcn. specialize (Hconf Hv Hcn). now inversion Hconf.
Qed.

(** ** The engine on the table an import creates *)

Lemma ci_eqb_refl (a : string) : ci_eqb a a = true.
Proof. apply String.eqb_refl. Qed.

Lemma ci_eqb_eq (a b : string) : ci_eqb a b = true <-> lower a = lower b.
Proof. apply String.eqb_eq. Qed.


Lemma ci_eqb_congr (a b c : string) :
  ci_eqb a b = true -> ci_eqb a c = ci_eqb b c.
Proof. unfold ci_eqb. intros H. apply String.eqb_eq in H. now rewrite H. Qed.

Lemma find_app_none {A : Type} (f : A -> bool) (l1 l2 : list A) :
  find f l1 = None -> find f (l1 ++ l2) = find f l2.
Proof.
  induction l1 as [|x l1 IH]; simpl; [reflexivity|].
  destruct (f x); [discriminate | exact IH].
Qed.


Lemma find_table_db_with (pre : list Table) (idx : list Index) (t : Table)
  (name : string) :
  find (fun t => ci_eqb (t_name t) name) pre = None ->
  ci_eqb (t_name t) name = true ->
  find_table (db_with pre idx t) name = Some t.
Proof.
  intros Hpre Ht. unfold find_table, db_with. cbn [tables].
  rewrite (find_app_none _ _ _ Hpre). cbn [find]. now rewrite Ht.
Qed.



Lemma no_duplicate_head (h : string) (rest : list string) :
  has_duplicate (h :: rest) = false ->
  (forall x, In x rest -> ci_eqb h x = false) /\ has_duplicate rest = false.
Proof.
  cbn [has_duplicate]. intros H. apply orb_false_iff in H as [H1 H2].
  split; [|exact H2]. intros x Hx.
  destruct (ci_eqb h x) eqn:E; [|reflexivity].
  assert (existsb (ci_eqb h) rest = true)
    by (apply existsb_exists; eauto). congruence.
Qed.

(** With distinct column names, each column is bound to the value at its
    own position. *)
Lemma bound_values {B : Type} (F : string * StorageType -> option string -> B)
  (columns : list (string * StorageType)) (vals : list string) :
  has_duplicate (map fst columns) = false ->
  List.length vals = List.length columns ->
  map (fun x => F x (bound_value (combine (map fst columns) vals) (fst x)))
      columns =
  map (fun xv => F (fst xv) (Some (snd xv))) (combine columns vals).
Proof.
  revert vals. induction columns as [|[h t] cs IH]; intros vals Hdup Hlen;
    [reflexivity|].
  destruct vals as [|v vs]; [discriminate|].
  cbn [map fst] in Hdup. apply no_duplicate_head in Hdup as [Hh Hrest].
  cbn [map combine fst snd bound_value]. rewrite ci_eqb_refl. f_equal.
  rewrite <- IH; [|exact Hrest | now injection Hlen].
  apply map_ext_in. intros x Hx.
  rewrite (Hh (fst x)); [reflexivity|]. now apply in_map.
Qed.

Lemma combine_map_snd {A B C : Type} (f : B -> C) (l : list A) (l' : list B) :
  combine l (map f l') = map (fun p => (fst p, f (snd p))) (combine l l').
Proof.
  revert l'. induction l as [|a l IH]; intros [|b l']; cbn; [auto..|].
  now rewrite IH.
Qed.

Lemma new_row_import_table (now tn : string)
  (columns : list (string * StorageType)) (rows : list (list Value))
  (row : list string) :
  has_duplicate (map fst columns) = false ->
  List.length row = List.length columns ->
  new_row now (import_table tn columns rows) (map fst columns) (cleaned row) =
  stored_row columns row.
Proof.
  intros Hdup Hlen. unfold new_row, import_table, stored_row, cleaned.
  cbn [t_cols]. rewrite map_map. cbn [plain_column c_name c_decl].
  rewrite (bound_values
             (fun x o => match o with
                         | Some v => apply_affinity (decl_of (snd x)) v
                         | None => default_value now
                                     {| t_name := tn;
                                        t_cols := map (fun c => plain_column (fst c) (snd c)) columns;
                                        t_rows := rows |}
                                     (plain_column (fst x) (snd x))
                         end) columns (map strip row) Hdup).
  - rewrite combine_map_snd, map_map. reflexivity.
  - now rewrite length_map.
Qed.

Lemma import_table_columns_found (tn : string)
  (columns : list (string * StorageType)) (rows : list (list Value)) :
  forallb (fun c => match find_column (t_cols (import_table tn columns rows)) c with
                    | Some _ => true
                    | None => false
                    end) (map fst columns) = true.
Proof.
  apply forallb_forall. intros h Hin. cbn [import_table t_cols].
  apply in_map_iff in Hin as [[h' t] [<- Hin]]. cbn [fst].
  destruct (find_column (map (fun c => plain_column (fst c) (snd c)) columns) h')
    eqn:E; [reflexivity|].
  unfold find_column in E.
  assert (Hc : In (plain_column h' t)
                 (map (fun c => plain_column (fst c) (snd c)) columns)).
  { apply in_map_iff. exists (h', t). auto. }
  pose proof (find_none _ _ E _ Hc) as Hf. cbn [plain_column c_name] in Hf.
  rewrite ci_eqb_refl in Hf. discriminate.
Qed.


(** [row[col]] over the columns gives the row back. *)
Lemma row_get_all (columns : list string) (row : list Value) :
  has_duplicate columns = false ->
  List.length row = List.length columns ->
  map (fun col => row_get columns row col) columns = row.
Proof.
  revert row. induction columns as [|c cs IH]; intros [|v vs] Hdup Hlen;
    try discriminate; [reflexivity|].
  apply no_duplicate_head in Hdup as [Hc Hrest].
  cbn [map row_get]. rewrite ci_eqb_refl. f_equal.
  transitivity (map (fun col => row_get cs vs col) cs).
  - apply map_ext_in. intros x Hx. now rewrite (Hc x Hx).
  - apply IH; [exact Hrest | now injection Hlen].
Qed.


(** ** Import followed by export *)

Lemma ident_char_not_blank (c : ascii) :
  is_ident_char c = true -> negb (Ascii.eqb c " ") = true.
Proof. by_cases_on_char c. Qed.

Lemma header_passes_identifier (hash : string -> Z) (i : nat) (h : string) :
  is_identifier h = true -> normalizeHeader hash h i = h.
Proof.
  intros H. unfold normalizeHeader, header_first_pass.
  rewrite (strip_identifier h H).
  rewrite replace_no_change.
  2:{ apply (sall_impl is_ident_char); [apply ident_char_not_blank|].
      now apply is_identifier_chars. }
  destruct h as [|a r]; [discriminate|]. cbn [is_empty].
  unfold header_second_pass. now rewrite (is_identifier_match _ H).
Qed.

Lemma map_enumerate_id {A : Type} (f : nat -> A -> A) (l : list A) (i : nat) :
  (forall j x, In x l -> f j x = x) ->
  map (fun ix => f (fst ix) (snd ix)) (enumerate_from i l) = l.
Proof.
  revert i. induction l as [|x l IH]; intros i H; cbn; [reflexivity|].
  rewrite H by now left. f_equal. apply IH. intros j y Hy. apply H. now right.
Qed.

Lemma normalize_valid_headers (hash : string -> Z) (headers : list string) :
  Forall (fun h => is_identifier h = true) headers ->
  normalize_headers hash headers = headers.
Proof.
  intros H. rewrite normalize_headers_cells.
  apply (map_enumerate_id (fun i h => normalizeHeader hash h i)).
  intros j x Hx. apply header_passes_identifier.
  now apply (proj1 (Forall_forall _ _) H).
Qed.


Lemma map_snd_enumerate {A : Type} (l : list A) (i : nat) :
  map snd (enumerate_from i l) = l.
Proof.
  revert i. induction l as [|x l IH]; intros i; cbn; [reflexivity|].
  now rewrite IH.
Qed.

Lemma infer_columns_names (headers : list string)
  (samples : list (list string)) :
  map fst (infer_columns headers samples) = headers.
Proof.
  unfold infer_columns, enumerate. rewrite map_map. cbn [fst].
  apply map_snd_enumerate.
Qed.


(** The monad, step by step. *)
Lemma bind_returned {A B : Type} (m : M A) (k : A -> M B) (s s' : State)
  (a : A) :
  m s = (Returned a, s') -> bind m k s = k a s'.
Proof. unfold bind. now intros ->. Qed.



Section ImportedTable.

Variables (tn : string) (pre : list Table) (idx : list Index).
Variable columns : list (string * StorageType).

Hypothesis fresh : find (fun t => ci_eqb (t_name t) tn) pre = None.
Hypothesis distinct : has_duplicate (map fst columns) = false.




End ImportedTable.

Lemma length_smap (f : ascii -> ascii) (s : string) :
  String.length (smap f s) = String.length s.
Proof. induction s as [|c r IH]; cbn; congruence. Qed.

Lemma ci_eqb_length (a b : string) :
  ci_eqb a b = true -> String.length a = String.length b.
Proof.
  intros H. apply ci_eqb_eq in H. unfold lower in H.
  rewrite <- (length_smap to_lower a), <- (length_smap to_lower b).
  now rewrite H.
Qed.

Lemma length_append (a b : string) :
  String.length (a ++ b) = (String.length a + String.length b)%nat.
Proof. induction a as [|c r IH]; cbn; congruence. Qed.

Lemma index_name_differs (tn ci : string) :
  ci_eqb tn ("idx_" ++ tn ++ "_" ++ ci) = false.
Proof.
  destruct (ci_eqb tn ("idx_" ++ tn ++ "_" ++ ci)) eqn:E; [|reflexivity].
  apply ci_eqb_length in E. rewrite !length_append in E. cbn in E. lia.
Qed.

Lemma index_name_not_reserved (x : string) : reserved_name ("idx_" ++ x) = false.
Proof. reflexivity. Qed.


Lemma find_replace_other (ts : list Table) (a b : string) (t' : Table) :
  ci_eqb (t_name t') a = true ->
  ci_eqb a b = false ->
  find (fun t => ci_eqb (t_name t) b) (replace_table ts a t') =
  find (fun t => ci_eqb (t_name t) b) ts.
Proof.
  intros Ht' Hab. induction ts as [|x ts IH]; cbn [replace_table find];
    [reflexivity|].
  destruct (ci_eqb (t_name x) a) eqn:Ex; cbn [find].
  - rewrite (ci_eqb_congr _ _ b Ht'), (ci_eqb_congr _ _ b Ex), Hab.
    reflexivity.
  - now rewrite IH.
Qed.

Lemma insert_into_other (now : string) (db db' : DB) (a b : string)
  (cols vals : list string) :
  insert_into now db a cols vals = Ok db' ->
  ci_eqb a b = false ->
  find_table db' b = find_table db b.
Proof.
  unfold insert_into. destruct (find_table db a) as [t|] eqn:Ht; [|discriminate].
  destruct (negb (forallb _ cols)); [discriminate|].
  destruct (negb (List.length vals =? List.length cols)%nat); [discriminate|].
  intros H Hab. injection H as <-. unfold find_table. cbn [tables].
  apply find_replace_other; [|exact Hab]. cbn [t_name].
  unfold find_table in Ht. now apply find_some in Ht as [_ Ht].
Qed.

Lemma _log_event_keeps (ev details name : string) (s : State) :
  st_connected s = true ->
  st_tx s = None ->
  ci_eqb "audit_log" name = false ->
  find_table (st_db (snd (_log_event ev details s))) name =
    find_table (st_db s) name /\
  st_connected (snd (_log_event ev details s)) = true /\
  st_tx (snd (_log_event ev details s)) = None /\
  st_files (snd (_log_event ev details s)) = st_files s.
Proof.
  intros Hc Htx Hname.
  unfold _log_event, try_except, audit_write, with_connection, bind, execute,
    ret, log_error.
  rewrite Hc. cbn [negb].
  destruct s as [conn iso db tx now trace errlog files].
  cbn [st_connected st_tx] in Hc, Htx. subst conn tx.
  destruct iso as [lvl|];
    cbn [add_trace set_tx set_db st_isolation st_tx st_db st_now st_connected
         is_dml run_stmt];
    destruct (insert_into now db "audit_log" ["event_type"; "details"]
                [ev; details]) as [db'|e] eqn:Hi;
    cbn; repeat split; auto; eapply insert_into_other; eauto.
Qed.

Lemma connect_when_connected (s : State) :
  st_connected s = true -> connect s = (Returned tt, s).
Proof. unfold connect. now intros ->. Qed.




Lemma _log_event_files (ev details : string) (s : State) :
  st_files (snd (_log_event ev details s)) = st_files s.
Proof.
  unfold _log_event, try_except, audit_write, with_connection, bind, execute,
    ret, log_error.
  destruct s as [conn iso db tx now trace errlog files].
  destruct conn; [|reflexivity].
  cbn [negb st_connected].
  destruct iso as [lvl|], tx as [snapshot|];
    cbn [add_trace set_tx set_db st_isolation st_tx st_db st_now st_connected
         is_dml run_stmt];
    destruct (insert_into now db "audit_log" ["event_type"; "details"]
                [ev; details]) as [db'|e]; reflexivity.
Qed.

Lemma unlisted_table_not_fetched (db : DB) (name : string) :
  find_table db name = None ->
  filter (fun t => String.eqb (t_name t) name) (tables db) = [].
Proof.
  unfold find_table. induction (tables db) as [|x ts IH]; cbn [find filter];
    [reflexivity|].
  destruct (ci_eqb (t_name x) name) eqn:E; [discriminate|].
  intros H. destruct (String.eqb (t_name x) name) eqn:E2; [|now apply IH].
  apply String.eqb_eq in E2. rewrite E2, ci_eqb_refl in E. discriminate.
Qed.



(** ** The two statements above at concrete inputs *)

(** Validation comes before the existence check: with table [t] in the
    database and no append, importing a file that has no header row is
    refused as empty input, not as a conflict. *)
Lemma existing_table_empty_file_not_conflict :
  let s := table_t_state "now" in
  let r := import_csv (py_hash secret_seed0) empty_source "data.csv" "t"
             false None s in
  sanitize_identifier "t" = Ok "t" /\
  table_listed (st_db s) "t" /\
  fst r = Raised EmptyInput /\
  fst r <> Raised TableAlreadyExists.
Proof.
  cbv zeta. split; [reflexivity|]. split.
  - eexists. split; [right; left; reflexivity | reflexivity].
  - split; [reflexivity | discriminate].
Qed.

Lemma import_into_existing_table_fails_witness :
  let s := table_t_state "now" in
  let r := import_csv (py_hash secret_seed0) people_source "people.csv" "t"
             false None s in
  sanitize_identifier "t" = Ok "t" /\
  table_listed (st_db s) "t" /\
  passes_validation (py_hash secret_seed0) people_source "people.csv" /\
  fst r = Raised TableAlreadyExists /\
  st_db (snd r) = st_db s.
Proof.
  cbv zeta.
  assert (Hl : table_listed (st_db (table_t_state "now")) "t").
  { eexists. split; [right; left; reflexivity | reflexivity]. }
  assert (Hv : passes_validation (py_hash secret_seed0) people_source
                 "people.csv").
  { split; [vm_compute; discriminate|]. split; [left; reflexivity|].
    eexists. eexists. eexists. split; reflexivity. }
  destruct (import_into_existing_table_fails (py_hash secret_seed0)
              people_source "people.csv" "t" None (table_t_state "now") "t"
              eq_refl Hl) as [_ [Hdb [_ Hc]]].
  split; [reflexivity|]. split; [exact Hl|]. split; [exact Hv|].
  split; [exact (Hc Hv eq_refl)|].
  destruct Hdb as [H|[H _]]; [exact H | discriminate].
Defined.

(** C9.  The existence check of [import_csv] compares the requested name
    with the listed names byte for byte, while the engine resolves a table
    name without regard to letter case.  With table [People] in the
    database, an import of a valid file into [people] without append is
    not refused: the engine finds [People] under that name, the check
    fetches no row, CREATE TABLE IF NOT EXISTS does nothing, the import
    returns, and [People] holds the two rows of the file after the row it
    had. *)
Theorem import_existing_table_other_case_appends :
  let s := capital_people_state "now" in
  let r := import_csv (py_hash secret_seed0) people_source "people.csv"
             "people" false None s in
  sanitize_identifier "people" = Ok "people" /\
  passes_validation (py_hash secret_seed0) people_source "people.csv" /\
  (exists t, find_table (st_db s) "people" = Some t /\
             t_name t = "People" /\
             t_rows t = [[VText "Zoe"; VInteger 41]]) /\
  (exists q, fst (execute (SelectMasterTable "people") s) = Returned q /\
             fetchone q = None) /\
  fst r = Returned tt /\
  fst r <> Raised TableAlreadyExists /\
  exists t', find_table (st_db (snd r)) "people" = Some t' /\
             t_name t' = "People" /\
             t_rows t' = [[VText "Zoe"; VInteger 41];
                          [VText "Alice"; VInteger 30];
                          [VText "Bob"; VText ""]].
Proof.
  cbv zeta. split; [reflexivity|]. split.
  { split; [vm_compute; discriminate|]. split; [left; reflexivity|].
    eexists. eexists. eexists. split; reflexivity. }
  split; [eexists; repeat split; reflexivity|].
  split; [eexists; split; reflexivity|].
  assert (Hr : fst (import_csv (py_hash secret_seed0) people_source
                      "people.csv" "people" false None
                      (capital_people_state "now")) = Returned tt)
    by (vm_compute; reflexivity).
  split; [exact Hr|]. split; [rewrite Hr; discriminate|].
  eexists. split; [vm_compute; reflexivity|]. split; reflexivity.
Qed.



(** ** Identifiers in statement text *)

(** The import path: every statement [import_csv] executes carries only
    names that match the identifier pattern. *)

Lemma trace_extends_refl (s : State) : trace_extends_sanitized s s.
Proof. exists []. split; [now rewrite app_nil_r | constructor]. Qed.

Lemma trace_extends_trans (s1 s2 s3 : State) :
  trace_extends_sanitized s1 s2 -> trace_extends_sanitized s2 s3 ->
  trace_extends_sanitized s1 s3.
Proof.
  intros [l1 [H1 F1]] [l2 [H2 F2]]. exists (l1 ++ l2)%list. split.
  - now rewrite H2, H1, app_assoc.
  - apply Forall_app. auto.
Qed.

Lemma trace_extends_same (s s' : State) :
  st_trace s' = st_trace s -> trace_extends_sanitized s s'.
Proof. intros H. exists []. split; [now rewrite app_nil_r | constructor]. Qed.

Lemma issues_ret {A : Type} (a : A) : issues_sanitized (ret a).
Proof. intros s. apply trace_extends_refl. Qed.

Lemma issues_raise {A : Type} (e : Error) : issues_sanitized (@raise A e).
Proof. intros s. apply trace_extends_refl. Qed.

Lemma issues_bind {A B : Type} (m : M A) (k : A -> M B) :
  issues_sanitized m -> (forall a, issues_sanitized (k a)) ->
  issues_sanitized (bind m k).
Proof.
  intros Hm Hk s. unfold bind. specialize (Hm s).
  destruct (m s) as [[a|e] s1]; cbn [snd] in *; [|exact Hm].
  apply (trace_extends_trans _ s1); [exact Hm | apply Hk].
Qed.

Lemma issues_bind_lift {A B : Type} (r : Result A) (k : A -> M B) :
  (forall a, r = Ok a -> issues_sanitized (k a)) ->
  issues_sanitized (bind (lift r) k).
Proof.
  intros Hk. destruct r as [a|e]; cbn [lift].
  - intros s. apply (Hk a eq_refl).
  - intros s. apply trace_extends_refl.
Qed.

Lemma issues_execute (stmt : Stmt) :
  stmt_sanitized stmt -> issues_sanitized (execute stmt).
Proof.
  intros H s. unfold execute.
  destruct s as [conn iso db tx now trace errlog files].
  destruct conn; cbn [negb st_connected]; [|apply trace_extends_refl].
  exists [stmt]. split; [|now constructor].
  destruct iso, tx, (is_dml stmt);
    cbn [add_trace set_tx st_isolation st_tx st_now st_db st_trace];
    match goal with
    | |- context [run_stmt ?n ?d ?t] => destruct (run_stmt n d t) as [[db' q]|e]
    end; reflexivity.
Qed.

Lemma conn_exit_trace (failed : bool) (s : State) :
  st_trace (conn_exit failed s) = st_trace s.
Proof. unfold conn_exit. destruct (st_tx s), failed; reflexivity. Qed.

Lemma issues_with_connection {A : Type} (body : M A) :
  issues_sanitized body -> issues_sanitized (with_connection body).
Proof.
  intros H s. unfold with_connection.
  destruct (st_connected s); cbn [negb]; [|apply trace_extends_refl].
  specialize (H s). destruct (body s) as [[a|e] s1]; cbn [snd] in *;
    (apply (trace_extends_trans _ s1); [exact H|]);
    apply trace_extends_same, conn_exit_trace.
Qed.

Lemma issues_try_except {A : Type} (body : M A) (handler : Error -> M A) :
  issues_sanitized body -> (forall e, issues_sanitized (handler e)) ->
  issues_sanitized (try_except body handler).
Proof.
  intros Hb Hh s. unfold try_except. specialize (Hb s).
  destruct (body s) as [[a|e] s1]; cbn [snd] in *; [exact Hb|].
  apply (trace_extends_trans _ s1); [exact Hb | apply Hh].
Qed.

Lemma stmt_sanitized_no_names (stmt : Stmt) :
  interpolated stmt = [] -> stmt_sanitized stmt.
Proof. unfold stmt_sanitized. intros ->. constructor. Qed.

Lemma issues_connect : issues_sanitized connect.
Proof.
  intros s. unfold connect. destruct (st_connected s) eqn:E;
    [apply trace_extends_refl|].
  apply (issues_bind open_connection (fun _ => _create_audit_table)).
  - intros s0. apply trace_extends_same. reflexivity.
  - intros _. apply issues_with_connection, issues_bind.
    + now apply issues_execute, stmt_sanitized_no_names.
    + intros q. apply issues_ret.
Qed.

Lemma issues__log_event (ev details : string) :
  issues_sanitized (_log_event ev details).
Proof.
  apply issues_try_except.
  - apply issues_with_connection, issues_bind.
    + now apply issues_execute, stmt_sanitized_no_names.
    + intros q. apply issues_ret.
  - intros e s. apply trace_extends_same. reflexivity.
Qed.

Lemma issues_insert_sample_rows (tn : string) (headers : list string)
  (rows : list (list string)) :
  Forall (fun name => is_identifier name = true) (tn :: headers) ->
  issues_sanitized (insert_sample_rows tn headers rows).
Proof.
  intros H. induction rows as [|row rest IH]; cbn [insert_sample_rows];
    [apply issues_ret|].
  apply issues_bind; [now apply issues_execute | intros _; exact IH].
Qed.

Lemma issues_insert_remaining_rows (tn : string) (headers : list string)
  (rows : list (list string)) :
  Forall (fun name => is_identifier name = true) (tn :: headers) ->
  issues_sanitized (insert_remaining_rows tn headers rows).
Proof.
  intros H. induction rows as [|row rest IH]; cbn [insert_remaining_rows];
    [apply issues_ret|].
  destruct (negb (List.length row =? List.length headers)%nat);
    [apply issues_raise|].
  apply issues_bind; [now apply issues_execute | intros _; exact IH].
Qed.

Lemma index_name_valid (tn ci : string) :
  is_identifier tn = true -> is_identifier ci = true ->
  is_identifier ("idx_" ++ tn ++ "_" ++ ci) = true.
Proof.
  intros Ht Hc.
  change ("idx_" ++ tn ++ "_" ++ ci)
    with (String "i" ("dx_" ++ tn ++ "_" ++ ci)).
  unfold is_identifier. rewrite !sall_app.
  rewrite (is_identifier_chars _ Ht), (is_identifier_chars _ Hc).
  reflexivity.
Qed.

Lemma issues_create_index (tn : string) (create_index_on : option string) :
  is_identifier tn = true ->
  issues_sanitized (create_index tn create_index_on).
Proof.
  intros Ht. unfold create_index.
  destruct create_index_on as [col|]; [|apply issues_ret].
  destruct (is_empty col); [apply issues_ret|].
  apply issues_bind_lift. intros ci Hci.
  apply sanitize_identifier_ok in Hci as [Hci _].
  apply issues_bind; [|intros _; apply issues_ret].
  apply issues_execute. unfold stmt_sanitized. cbn [interpolated].
  repeat constructor; auto. now apply index_name_valid.
Qed.

Lemma import_csv_issues_sanitized (hash : string -> Z) (src : CsvSource)
  (csv_path table_name : string) (append : bool)
  (create_index_on : option string) :
  issues_sanitized
    (import_csv hash src csv_path table_name append create_index_on).
Proof.
  unfold import_csv. apply issues_bind; [|intros tn; apply issues__log_event].
  unfold import_main. apply issues_bind_lift. intros tn Htn.
  apply sanitize_identifier_ok in Htn as [Htn _].
  destruct (MAX_CSV_SIZE <? src_size src); [apply issues_raise|].
  match goal with
  | |- issues_sanitized (if ?c then _ else _) => destruct c
  end; [apply issues_raise|].
  destruct (src_rows src) as [|raw_headers reader]; [apply issues_raise|].
  cbv zeta.
  pose proof (normalize_headers_identifiers hash raw_headers) as Hh.
  apply issues_bind_lift. intros [sample_rows remaining] _.
  apply issues_bind; [apply issues_connect | intros _].
  apply issues_bind;
    [now apply issues_execute, stmt_sanitized_no_names | intros q].
  match goal with
  | |- issues_sanitized (if ?c then _ else _) => destruct c
  end; [apply issues_raise|].
  apply issues_bind; [|intros _; apply issues_ret].
  apply issues_with_connection. unfold import_block.
  assert (Hall : Forall (fun name => is_identifier name = true)
                   (tn :: normalize_headers hash raw_headers))
    by (constructor; assumption).
  apply issues_bind; [|intros _].
  { apply issues_execute. unfold stmt_sanitized. cbn [interpolated].
    now rewrite infer_columns_names. }
  apply issues_bind; [now apply issues_insert_sample_rows | intros _].
  apply issues_bind; [now apply issues_insert_remaining_rows | intros _].
  now apply issues_create_index.
Qed.

(** C4.  [export_table_to_csv] and [table_info] put the caller's table name
    into the statement text as it comes: for the name [my table], which
    [sanitize_identifier] refuses, the exporter runs
    [SELECT * FROM 'my table'] and writes the table's rows, and the schema
    query runs [PRAGMA table_info('my table')]; neither keeps to sanitized
    names, as [import_csv] does. *)
Theorem export_interpolates_unsanitized_name :
  sanitize_identifier "my table" = Err InvalidIdentifier /\
  (let r := export_table_to_csv "my table" "out.csv" (odd_name_state "now") in
   fst r = Returned tt /\
   map sql_text (st_trace (snd r)) =
     ["SELECT * FROM 'my table'";
      "INSERT INTO audit_log (event_type, details) VALUES (?, ?)"] /\
   last_file (snd r) =
     Some {| f_path := "out.csv"; f_header := ["a"];
             f_rows := [[VText "x"]] |}) /\
  (let r := table_info "my table" (odd_name_state "now") in
   map sql_text (st_trace (snd r)) = ["PRAGMA table_info('my table')"] /\
   Exists (fun stmt => In "my table" (interpolated stmt)) (st_trace (snd r))) /\
  ~ issues_sanitized (export_table_to_csv "my table" "out.csv") /\
  ~ issues_sanitized (table_info "my table").
Proof.
  split; [reflexivity|]. split; [|split; [|split]].
  - vm_compute. repeat split; reflexivity.
  - split; [reflexivity|]. vm_compute. constructor. now left.
  - intros H. destruct (H (odd_name_state "now")) as [l [Hl Hf]].
    vm_compute in Hl. subst l.
    inversion Hf as [|? ? Hstmt _]. inversion Hstmt as [|? ? Hname _].
    discriminate Hname.
  - intros H. destruct (H (odd_name_state "now")) as [l [Hl Hf]].
    vm_compute in Hl. subst l.
    inversion Hf as [|? ? Hstmt _]. inversion Hstmt as [|? ? Hname _].
    discriminate Hname.
Qed.

(** * Further properties of the code *)

(** ** The database file name *)

Lemma substring_whole (s : string) : substring 0 (String.length s) s = s.
Proof. induction s as [|c r IH]; cbn; [reflexivity | now rewrite IH]. Qed.

Lemma substring_after (a b : string) (m : nat) :
  substring (String.length a) m (a ++ b) = substring 0 m b.
Proof. induction a as [|c r IH]; cbn; [reflexivity | exact IH]. Qed.

Lemma endswith_append (a b : string) : endswith (a ++ b) b = true.
Proof.
  unfold endswith. rewrite length_append.
  replace (String.length a + String.length b - String.length b)%nat
    with (String.length a) by lia.
  rewrite substring_after, substring_whole, String.eqb_refl.
  rewrite andb_true_r. apply Nat.leb_le. lia.
Qed.

(** X1.  The file name [DatabaseManager.__init__] keeps always ends in
    [.sqlite] or [.db]; a name that already does is kept, any other gets
    [.sqlite] appended, and normalizing twice changes nothing more. *)
Theorem init_db_path_extension (db_path : string) :
  (endswith (init_db_path db_path) ".sqlite" ||
   endswith (init_db_path db_path) ".db") = true /\
  init_db_path (init_db_path db_path) = init_db_path db_path /\
  (init_db_path db_path = db_path \/
   endswith db_path ".sqlite" = false /\ endswith db_path ".db" = false /\
   init_db_path db_path = db_path ++ ".sqlite").
Proof.
  assert (H : (endswith (init_db_path db_path) ".sqlite" ||
               endswith (init_db_path db_path) ".db") = true).
  { unfold init_db_path.
    destruct (endswith db_path ".sqlite") eqn:E1; cbn [negb andb];
      [now rewrite E1|].
    destruct (endswith db_path ".db") eqn:E2; cbn [negb andb].
    - now rewrite E1, E2.
    - now rewrite endswith_append. }
  split; [exact H|]. split.
  - unfold init_db_path at 1.
    apply orb_true_iff in H as [-> | ->]; cbn [negb andb];
      [reflexivity | now rewrite andb_false_r].
  - unfold init_db_path.
    destruct (endswith db_path ".sqlite"), (endswith db_path ".db");
      cbn [negb andb]; auto.
Qed.

(** ** The sampling window *)

Lemma has_width_dec (width : nat) (row : list string) :
  (List.length row =? width)%nat = true <-> has_width width row.
Proof. apply Nat.eqb_eq. Qed.

Lemma read_samples_cases (width n : nat) (rows : list (list string)) :
  (Forall (has_width width) (firstn n rows) ->
   read_samples width n rows = Ok (firstn n rows, skipn n rows)) /\
  (Exists (fun row => ~ has_width width row) (firstn n rows) ->
   read_samples width n rows = Err RowLengthMismatch).
Proof.
  revert rows. induction n as [|n IH]; intros rows.
  - split; [reflexivity|]. cbn [firstn]. intros H. inversion H.
  - destruct rows as [|row rest].
    + split; [reflexivity|]. cbn [firstn]. intros H. inversion H.
    + cbn [read_samples firstn skipn]. destruct (IH rest) as [IH1 IH2].
      destruct (List.length row =? width)%nat eqn:E; cbn [negb].
      * split.
        -- intros H. inversion H as [|? ? _ Hrest]; subst.
           now rewrite (IH1 Hrest).
        -- intros H. inversion H as [? ? Hrow|? ? Hrest]; subst.
           ++ exfalso. apply Hrow. now apply has_width_dec.
           ++ now rewrite (IH2 Hrest).
      * split; [|reflexivity].
        intros H. inversion H as [|? ? Hrow _]; subst.
        apply has_width_dec in Hrow. congruence.
Qed.

(** X2.  The sampling loop of [import_csv] looks at the first [n] rows
    only: when those have the header's width it yields exactly them and
    leaves the rest in the reader, whatever the later rows are; when one of
    them has another width it raises the row-length error. *)
Theorem read_samples_window (width n : nat) (rows : list (list string)) :
  (Forall (has_width width) (firstn n rows) ->
   read_samples width n rows = Ok (firstn n rows, skipn n rows)) /\
  (Exists (fun row => ~ has_width width row) (firstn n rows) ->
   read_samples width n rows = Err RowLengthMismatch).
Proof. apply read_samples_cases. Qed.

Lemma read_samples_window_witness :
  read_samples 2 2 [["a"; "b"]; ["c"; "d"]; ["short"]] =
    Ok ([["a"; "b"]; ["c"; "d"]], [["short"]]) /\
  read_samples 2 3 [["a"; "b"]; ["c"; "d"]; ["short"]] =
    Err RowLengthMismatch.
Proof.
  split.
  - apply (proj1 (read_samples_window 2 2 [["a"; "b"]; ["c"; "d"]; ["short"]])).
    repeat constructor.
  - apply (proj2 (read_samples_window 2 3 [["a"; "b"]; ["c"; "d"]; ["short"]])).
    right. right. left. unfold has_width. cbn. discriminate.
Defined.

(** ** Type inference and the order of the samples *)

Lemma scan_rank (t : StorageType) (samples : list string) :
  (type_rank t <= type_rank (inferType_scan t samples))%nat.
Proof.
  revert t. induction samples as [|v rest IH]; intros t; cbn [inferType_scan];
    [lia|].
  destruct (sample_kind v).
  - destruct t; cbn; lia.
  - apply IH.
  - specialize (IH (promote t)). destruct t; cbn in *; lia.
  - destruct t; cbn; lia.
Qed.

Lemma scan_rank_app (t : StorageType) (samples more : list string) :
  (type_rank (inferType_scan t samples) <=
   type_rank (inferType_scan t (samples ++ more)))%nat.
Proof.
  revert t. induction samples as [|v rest IH]; intros t;
    cbn [inferType_scan app]; [apply scan_rank|].
  destruct (sample_kind v); auto.
Qed.

(** X3.  More samples never lower the inferred type: in the order INTEGER,
    REAL, TEXT the type of a sample list is at most the type of any list
    that extends it.  In particular a column that is TEXT on a prefix of
    the sample stays TEXT. *)
Theorem consistent_types_grows (samples more : list string) :
  (type_rank (consistent_types samples) <=
   type_rank (consistent_types (samples ++ more)))%nat /\
  (consistent_types samples = TEXT ->
   consistent_types (samples ++ more) = TEXT).
Proof.
  unfold consistent_types. rewrite !consistent_types_from_scan.
  pose proof (scan_rank_app INTEGER samples more) as H.
  split; [exact H|]. intros Ht. rewrite Ht in H.
  destruct (inferType_scan INTEGER (samples ++ more)); cbn in H; try lia.
  reflexivity.
Qed.

Lemma consistent_types_grows_witness :
  consistent_types ["1"; "x"] = TEXT /\
  consistent_types (["1"; "x"] ++ ["2"; "3"]) = TEXT.
Proof.
  split; [reflexivity|].
  apply (proj2 (consistent_types_grows ["1"; "x"] ["2"; "3"])). reflexivity.
Defined.

(** X4.  The inferred type does not depend on the order of the samples:
    two sample lists that are permutations of one another give the same
    type. *)
Theorem consistent_types_permutation (samples samples' : list string) :
  Permutation samples samples' ->
  consistent_types samples = consistent_types samples'.
Proof.
  intros Hp. unfold consistent_types. rewrite !consistent_types_from_scan.
  destruct (inferType_scan INTEGER samples) eqn:E; symmetry.
  - apply scan_integer in E as [_ E]. apply scan_integer. split; [reflexivity|].
    now apply (Permutation_Forall Hp).
  - apply scan_real in E as [E1 [E2|[_ E2]]]; [discriminate|].
    apply scan_real. split; [now apply (Permutation_Forall Hp)|].
    right. split; [reflexivity|]. now apply (Permutation_Exists Hp).
  - apply scan_text in E as [E|E]; [discriminate|].
    apply scan_text. right. now apply (Permutation_Exists Hp).
Qed.

Lemma consistent_types_permutation_witness :
  Permutation ["1"; "2.5"; "3"] ["2.5"; "3"; "1"] /\
  consistent_types ["1"; "2.5"; "3"] = consistent_types ["2.5"; "3"; "1"].
Proof.
  assert (Hp : Permutation ["1"; "2.5"; "3"] ["2.5"; "3"; "1"]).
  { apply (Permutation_cons_app ["2.5"; "3"] [] "1"). apply Permutation_refl. }
  split; [exact Hp|]. exact (consistent_types_permutation _ _ Hp).
Defined.

(** ** Header normalization, once more *)

Lemma length_enumerate_from {A : Type} (l : list A) (i : nat) :
  List.length (enumerate_from i l) = List.length l.
Proof.
  revert i. induction l as [|x l IH]; intros i; cbn; [reflexivity|].
  now rewrite IH.
Qed.

(** X5.  Normalizing a header row keeps its length, leaves a row of valid
    identifiers as it is, and is idempotent: a normalized row normalizes
    to itself, whatever the hash function. *)
Theorem normalize_headers_idempotent (hash : string -> Z)
  (headers : list string) :
  List.length (normalize_headers hash headers) = List.length headers /\
  normalize_headers hash (normalize_headers hash headers) =
    normalize_headers hash headers /\
  (Forall (fun h => is_identifier h = true) headers ->
   normalize_headers hash headers = headers).
Proof.
  split; [|split].
  - unfold normalize_headers, enumerate.
    now rewrite !length_map, length_enumerate_from.
  - apply normalize_valid_headers, normalize_headers_identifiers.
  - apply normalize_valid_headers.
Qed.

Lemma normalize_headers_idempotent_witness :
  Forall (fun h => is_identifier h = true) ["name"; "age_2"] /\
  normalize_headers (py_hash secret_seed0) ["name"; "age_2"] =
    ["name"; "age_2"].
Proof.
  assert (H : Forall (fun h => is_identifier h = true) ["name"; "age_2"])
    by (repeat constructor).
  split; [exact H|].
  exact (proj2 (proj2 (normalize_headers_idempotent (py_hash secret_seed0)
                         ["name"; "age_2"])) H).
Defined.

(** ** The command-line guards *)

Lemma contains_char_app (c : ascii) (a b : string) :
  contains_char c (a ++ b) = contains_char c a || contains_char c b.
Proof.
  induction a as [|d r IH]; cbn; [reflexivity|]. now rewrite IH, orb_assoc.
Qed.

Lemma drop_last_app (a b : string) :
  b <> "" -> drop_last (a ++ b) = a ++ drop_last b.
Proof.
  intros Hb. induction a as [|d r IH]; [reflexivity|].
  cbn [append drop_last]. rewrite IH.
  destruct (r ++ b) eqn:E; [|reflexivity].
  destruct r, b; cbn in E; congruence.
Qed.

Lemma starts_create_table_dangerous (sql : string) :
  startswith (upper (strip sql)) "CREATE TABLE" = true ->
  is_sql_dangerous sql = true.
Proof.
  intros H. unfold is_sql_dangerous. apply any_prefix_iff.
  exists "CREATE TABLE". split; [cbn; tauto | exact H].
Qed.

(** X6.  A statement that [cli_create_table] hands to the engine begins
    with CREATE TABLE (so the classifier calls it dangerous) and holds no
    semicolon except, at most, as the last character of its trimmed text:
    nothing can follow a semicolon. *)
Theorem cli_create_table_single_statement (create_stmt : string) :
  cli_create_table_check create_stmt = Submitted ->
  classify create_stmt = Dangerous /\
  (forall a b, strip create_stmt = a ++ String ";" b -> b = "").
Proof.
  unfold cli_create_table_check.
  destruct (startswith (upper (strip create_stmt)) "CREATE TABLE") eqn:Hp;
    cbn [negb]; [|discriminate].
  destruct (contains_char ";" (drop_last (strip create_stmt))) eqn:Hc;
    [discriminate|]. intros _. split.
  - unfold classify.
    rewrite (starts_create_table_dangerous _ Hp), orb_true_r. reflexivity.
  - intros a b Hs. destruct b as [|c b]; [reflexivity|]. exfalso.
    rewrite Hs in Hc.
    rewrite drop_last_app in Hc by discriminate.
    rewrite contains_char_app in Hc.
    change (drop_last (String ";" (String c b)))
      with (String ";" (drop_last (String c b))) in Hc.
    cbn [contains_char] in Hc. rewrite Ascii.eqb_refl in Hc.
    cbn [orb] in Hc. rewrite orb_true_r in Hc. discriminate.
Qed.

Lemma cli_create_table_single_statement_witness :
  cli_create_table_check " create table t (a TEXT); " = Submitted /\
  classify " create table t (a TEXT); " = Dangerous /\
  cli_create_table_check "CREATE TABLE t (a); DROP TABLE u" =
    MultipleStatements.
Proof.
  assert (H : cli_create_table_check " create table t (a TEXT); " = Submitted)
    by reflexivity.
  split; [exact H|].
  split; [exact (proj1 (cli_create_table_single_statement _ H)) | reflexivity].
Defined.

Lemma lstrip_with_app (p : ascii -> bool) (c : ascii) (k r : string) :
  p c = false -> lstrip_with p (String c k ++ r) = String c k ++ r.
Proof. intros H. cbn. now rewrite H. Qed.

Lemma rstrip_with_app (p : ascii -> bool) (k r : string) :
  sall (fun c => negb (p c)) k = true ->
  rstrip_with p (k ++ r) = k ++ rstrip_with p r.
Proof.
  induction k as [|c k IH]; cbn [append sall rstrip_with]; [reflexivity|].
  intros H. apply andb_true_iff in H as [Hc Hk].
  apply negb_true_iff in Hc. now rewrite Hc, (IH Hk).
Qed.

Lemma smap_app (f : ascii -> ascii) (a b : string) :
  smap f (a ++ b) = smap f a ++ smap f b.
Proof. induction a as [|c r IH]; cbn; [reflexivity | now rewrite IH]. Qed.

Lemma startswith_app (k r : string) : startswith (k ++ r) k = true.
Proof.
  induction k as [|c k IH]; cbn; [now destruct r|].
  now rewrite Ascii.eqb_refl, IH.
Qed.

(** A statement that begins with a safe keyword is safe, whatever text
    follows the keyword. *)
Lemma safe_keyword_prefix (k rest : string) :
  In k SAFE_SQL_PREFIXES -> is_sql_safe (k ++ rest) = true.
Proof.
  intros Hin. unfold is_sql_safe. apply any_prefix_iff. exists k.
  split; [exact Hin|].
  assert (Hk : exists c k', k = String c k' /\ is_space c = false /\
                            sall (fun c => negb (is_space c)) k = true /\
                            upper k = k).
  { cbn in Hin. destruct Hin as [<-|[<-|[<-|[]]]];
      eexists; eexists; repeat split. }
  destruct Hk as [c [k' [Hk [Hc [Hall Hup]]]]].
  unfold strip, strip_with. rewrite Hk at 1.
  rewrite (lstrip_with_app _ _ _ _ Hc), <- Hk.
  rewrite (rstrip_with_app _ _ _ Hall).
  unfold upper in *. rewrite smap_app, Hup. apply startswith_app.
Qed.

Lemma substring_prefix_length (n : nat) (s : string) :
  String.length (substring 0 n s) = Nat.min n (String.length s).
Proof.
  revert n. induction s as [|c r IH]; intros [|n]; cbn; try reflexivity.
  now rewrite IH.
Qed.

Lemma substring_prefix_rest (n : nat) (s : string) :
  substring 0 n s ++ substring n (String.length s - n) s = s.
Proof.
  revert n. induction s as [|c r IH]; intros [|n]; cbn; try reflexivity.
  - f_equal. apply substring_whole.
  - now rewrite IH.
Qed.

(** X7.  What [cli_query] decides before it hands a query to
    [cur.execute]: a disallowed query is never handed over; a dangerous
    one is handed over exactly when the answer to the confirmation,
    trimmed and lower-cased, is [y] or [yes], and is cancelled otherwise;
    a safe one is handed over without being confirmed, and so is every
    text that begins with a safe keyword, whatever follows the keyword.
    The details of the audit entry are the first 200 characters of the
    query: the whole query when it has no more, and otherwise the prefix
    of length 200, the query being the details followed by its
    characters from position 200 on. *)
Theorem cli_query_gate (query answer : string) :
  (classify query = Disallowed -> cli_query_decision query answer = NotAllowed) /\
  (classify query = Dangerous ->
   (lower (strip answer) = "y" \/ lower (strip answer) = "yes" ->
    cli_query_decision query answer = Executed) /\
   (lower (strip answer) <> "y" -> lower (strip answer) <> "yes" ->
    cli_query_decision query answer = Cancelled)) /\
  (classify query = Safe -> cli_query_decision query answer = Executed) /\
  (forall k rest, In k SAFE_SQL_PREFIXES ->
     cli_query_decision (k ++ rest) answer = Executed) /\
  String.length (query_audit_details query) =
    Nat.min 200 (String.length query) /\
  query = query_audit_details query ++
          substring 200 (String.length query - 200) query /\
  ((String.length query <= 200)%nat -> query_audit_details query = query).
Proof.
  assert (Hsafe : forall q, is_sql_safe q = true ->
                            cli_query_decision q answer = Executed).
  { intros q Hq. unfold cli_query_decision. rewrite Hq.
    unfold is_sql_safe, is_sql_dangerous in *.
    now rewrite (safe_not_dangerous _ Hq). }
  split; [|split; [|split; [|split; [|split; [|split]]]]].
  - unfold classify, cli_query_decision.
    destruct (is_sql_safe query), (is_sql_dangerous query); cbn [orb negb];
      try discriminate; reflexivity.
  - intros Hd. unfold classify in Hd. unfold cli_query_decision.
    destruct (is_sql_safe query), (is_sql_dangerous query);
      cbn [orb negb] in *; try discriminate; split.
    + intros [-> | ->]; reflexivity.
    + intros H1 H2.
      destruct (String.eqb (lower (strip answer)) "y") eqn:E1;
        [apply String.eqb_eq in E1; congruence|].
      destruct (String.eqb (lower (strip answer)) "yes") eqn:E2;
        [apply String.eqb_eq in E2; congruence|]. reflexivity.
    + intros [-> | ->]; reflexivity.
    + intros H1 H2.
      destruct (String.eqb (lower (strip answer)) "y") eqn:E1;
        [apply String.eqb_eq in E1; congruence|].
      destruct (String.eqb (lower (strip answer)) "yes") eqn:E2;
        [apply String.eqb_eq in E2; congruence|]. reflexivity.
  - intros Hs. unfold classify in Hs.
    destruct (is_sql_safe query) eqn:Es; [now apply Hsafe|].
    destruct (is_sql_dangerous query); cbn [orb negb] in Hs; discriminate.
  - intros k rest Hin. apply Hsafe. now apply safe_keyword_prefix.
  - apply substring_prefix_length.
  - symmetry. apply substring_prefix_rest.
  - intros Hlen. unfold query_audit_details.
    pose proof (substring_prefix_rest 200 query) as Hrest.
    replace (String.length query - 200)%nat with 0%nat in Hrest by lia.
    assert (Hnil : forall k t, substring k 0 t = "").
    { intros k t. revert k. induction t as [|c r IH]; intros [|k]; cbn;
        try reflexivity. apply IH. }
    rewrite Hnil in Hrest. rewrite <- Hrest at 2.
    clear. generalize (substring 0 200 query). intros t.
    induction t as [|c r IH]; cbn; [reflexivity | now rewrite <- IH].
Qed.

Lemma cli_query_gate_witness :
  classify "drop table t" = Dangerous /\
  cli_query_decision "drop table t" " Yes " = Executed /\
  cli_query_decision "drop table t" "no" = Cancelled /\
  cli_query_decision "SELECT 1; DROP TABLE t" "" = Executed /\
  cli_query_decision "VACUUM" "y" = NotAllowed /\
  query_audit_details "drop table t" = "drop table t".
Proof.
  destruct (cli_query_gate "drop table t" " Yes ")
    as [_ [Hd [_ [_ [_ [_ Hshort]]]]]].
  destruct (cli_query_gate "drop table t" "no") as [_ [Hd' _]].
  destruct (cli_query_gate "VACUUM" "y") as [Hn _].
  destruct (cli_query_gate "" "") as [_ [_ [_ [Hk _]]]].
  split; [reflexivity|]. split.
  - apply (proj1 (Hd eq_refl)). right. reflexivity.
  - split.
    + apply (proj2 (Hd' eq_refl)); discriminate.
    + split.
      * apply (Hk "SELECT" " 1; DROP TABLE t"). cbn. tauto.
      * split; [apply Hn; reflexivity|]. apply Hshort. cbn. lia.
Defined.

(** ** Sessions and single statements *)

Lemma same_session_refl (s : State) : same_session s s.
Proof. unfold same_session. auto 10. Qed.

Lemma same_session_trans (s1 s2 s3 : State) :
  same_session s1 s2 -> same_session s2 s3 -> same_session s1 s3.
Proof.
  unfold same_session.
  intros [A1 [A2 [A3 [A4 [A5 A6]]]]] [B1 [B2 [B3 [B4 [B5 B6]]]]].
  repeat split; try congruence.
  intros H. rewrite B6 by congruence. auto.
Qed.

Lemma same_session_autocommit (s s' : State) :
  same_session s s' -> autocommit s -> autocommit s'.
Proof.
  unfold same_session, autocommit.
  intros [_ [_ [_ [_ [H5 H6]]]]] [Hi Ht]. split; [congruence|].
  rewrite H6 by exact Hi. exact Ht.
Qed.

Lemma execute_session (stmt : Stmt) (s : State) :
  st_connected s = true ->
  exists s0,
    same_session s s0 /\ st_db s0 = st_db s /\
    execute stmt s =
      match run_stmt (st_now s) (st_db s) stmt with
      | Ok (db', q) => (Returned q, set_db db' s0)
      | Err e => (Raised e, s0)
      end.
Proof.
  intros Hc. unfold execute. rewrite Hc. cbn [negb].
  destruct s as [conn iso db tx now trace errlog files].
  cbn [st_connected] in Hc. subst conn.
  destruct iso as [lvl|], tx as [snapshot|], (is_dml stmt) eqn:Ed;
    cbn [add_trace set_tx st_isolation st_tx st_now st_db];
    eexists; (split; [|split; [|reflexivity]]);
    unfold same_session; cbn; auto 10; repeat split; auto; discriminate.
Qed.

Lemma execute_ok (stmt : Stmt) (s : State) (db' : DB) (q : QueryResult) :
  st_connected s = true ->
  run_stmt (st_now s) (st_db s) stmt = Ok (db', q) ->
  exists s', execute stmt s = (Returned q, s') /\
             st_db s' = db' /\ same_session s s'.
Proof.
  intros Hc Hr. destruct (execute_session stmt s Hc) as [s0 [Hs [Hd He]]].
  rewrite Hr in He. exists (set_db db' s0). split; [exact He|].
  split; [reflexivity|]. unfold same_session in *. cbn. exact Hs.
Qed.

Lemma execute_err (stmt : Stmt) (s : State) (e : Error) :
  st_connected s = true ->
  run_stmt (st_now s) (st_db s) stmt = Err e ->
  exists s', execute stmt s = (Raised e, s') /\
             st_db s' = st_db s /\ same_session s s'.
Proof.
  intros Hc Hr. destruct (execute_session stmt s Hc) as [s0 [Hs [Hd He]]].
  rewrite Hr in He. exists s0. auto.
Qed.

Lemma conn_exit_autocommit_session (failed : bool) (s : State) :
  autocommit s -> conn_exit failed s = s.
Proof. intros [_ H]. now apply conn_exit_autocommit. Qed.

Lemma with_connection_autocommit {A : Type} (body : M A) (s : State) :
  st_connected s = true ->
  autocommit s ->
  autocommit (snd (body s)) ->
  with_connection body s = body s.
Proof.
  intros Hc Ha Hb. unfold with_connection. rewrite Hc. cbn [negb].
  destruct (body s) as [[a|e] s'] eqn:E; cbn [snd] in Hb;
    now rewrite conn_exit_autocommit_session.
Qed.

Lemma connect_autocommit (s : State) :
  autocommit s ->
  autocommit (snd (connect s)) /\
  st_errlog (snd (connect s)) = st_errlog s.
Proof.
  intros [Hi Ht]. unfold connect, autocommit.
  destruct (st_connected s) eqn:Hc; cbn [snd]; [auto|].
  unfold bind, open_connection, _create_audit_table, with_connection, bind,
    execute, ret.
  cbn -[create_table_if_not_exists].
  destruct (create_table_if_not_exists (st_db s) "audit_log" audit_columns);
    cbn; auto.
Qed.

(** ** The engine on a table found by name *)

Lemma find_replace_same (ts : list Table) (name : string) (t t' : Table) :
  find (fun x => ci_eqb (t_name x) name) ts = Some t ->
  ci_eqb (t_name t') name = true ->
  find (fun x => ci_eqb (t_name x) name) (replace_table ts name t') = Some t'.
Proof.
  intros Hf Ht'. induction ts as [|x ts IH]; cbn [find replace_table] in *;
    [discriminate|].
  destruct (ci_eqb (t_name x) name) eqn:E; cbn [find].
  - now rewrite Ht'.
  - rewrite E. now apply IH.
Qed.

Lemma found_name (db : DB) (name : string) (t : Table) :
  find_table db name = Some t -> ci_eqb (t_name t) name = true.
Proof. unfold find_table. intros H. now apply find_some in H as [_ H]. Qed.

Lemma others_kept_refl (tn : string) (db : DB) : others_kept tn db db.
Proof. intros b _. reflexivity. Qed.

Lemma others_kept_trans (tn : string) (db1 db2 db3 : DB) :
  others_kept tn db1 db2 -> others_kept tn db2 db3 -> others_kept tn db1 db3.
Proof. intros H1 H2 b Hb. now rewrite (H2 b Hb), (H1 b Hb). Qed.

Lemma insert_into_found (now tn name : string) (db : DB)
  (columns : list (string * StorageType)) (rows : list (list Value))
  (row : list string) :
  find_table db tn = Some (import_table name columns rows) ->
  has_duplicate (map fst columns) = false ->
  List.length row = List.length columns ->
  exists db',
    insert_into now db tn (map fst columns) (cleaned row) = Ok db' /\
    find_table db' tn =
      Some (import_table name columns (rows ++ [stored_row columns row])%list) /\
    others_kept tn db db' /\
    indexes db' = indexes db.
Proof.
  intros Hf Hdup Hlen.
  pose proof (found_name _ _ _ Hf) as Hname. cbn [import_table t_name] in Hname.
  assert (Hins :
    insert_into now db tn (map fst columns) (cleaned row) =
    Ok {| tables := replace_table (tables db) tn
                      (import_table name columns
                         (rows ++ [stored_row columns row])%list);
          indexes := indexes db |}).
  { unfold insert_into. rewrite Hf, import_table_columns_found. cbn [negb].
    unfold cleaned at 1. rewrite !length_map, Hlen, Nat.eqb_refl. cbn [negb].
    now rewrite new_row_import_table by assumption. }
  eexists. split; [exact Hins|]. split; [|split; [|reflexivity]].
  - unfold find_table. cbn [tables].
    apply (find_replace_same _ _ _ _ Hf). exact Hname.
  - intros b Hb. now apply (insert_into_other _ _ _ _ _ _ _ Hins).
Qed.


(** ** Rows into a table found by name *)

Lemma advanced_trans (tn name : string) (columns : list (string * StorageType))
  (rows1 rows2 : list (list Value)) (s s1 s2 : State) :
  advanced tn name columns rows1 s s1 ->
  advanced tn name columns rows2 s1 s2 ->
  advanced tn name columns rows2 s s2.
Proof.
  intros [_ [K1 S1]] [F2 [K2 S2]]. split; [exact F2|]. split.
  - now apply (others_kept_trans _ _ (st_db s1)).
  - now apply (same_session_trans _ s1).
Qed.

Lemma same_session_connected (s s' : State) :
  same_session s s' -> st_connected s = true -> st_connected s' = true.
Proof. intros [H _] Hc. congruence. Qed.

Section ImportFound.

Variables (tn name : string) (columns : list (string * StorageType)).
Hypothesis distinct : has_duplicate (map fst columns) = false.

Lemma insert_row_found (s : State) (rows0 : list (list Value))
  (row : list string) :
  st_connected s = true ->
  find_table (st_db s) tn = Some (import_table name columns rows0) ->
  List.length row = List.length columns ->
  exists s',
    execute (InsertInto tn (map fst columns) (cleaned row)) s =
      (Returned no_rows, s') /\
    advanced tn name columns (rows0 ++ [stored_row columns row])%list s s'.
Proof.
  intros Hc Hf Hlen.
  destruct (insert_into_found (st_now s) tn name (st_db s) columns rows0 row
              Hf distinct Hlen) as [db' [Hi [Hf' [Hk _]]]].
  destruct (execute_ok (InsertInto tn (map fst columns) (cleaned row)) s db'
              no_rows Hc) as [s' [He [Hdb Hs]]].
  { cbn [run_stmt]. now rewrite Hi. }
  exists s'. split; [exact He|]. unfold advanced. rewrite Hdb. auto.
Qed.

Lemma insert_sample_rows_found (rows : list (list string)) :
  forall (s : State) (rows0 : list (list Value)),
    st_connected s = true ->
    find_table (st_db s) tn = Some (import_table name columns rows0) ->
    Forall (has_width (List.length columns)) rows ->
    exists s',
      insert_sample_rows tn (map fst columns) rows s = (Returned tt, s') /\
      advanced tn name columns (rows0 ++ map (stored_row columns) rows)%list
        s s'.
Proof.
  induction rows as [|row rest IH]; intros s rows0 Hc Hf Hw.
  - exists s. cbn [insert_sample_rows map]. rewrite app_nil_r.
    split; [reflexivity|]. split; [exact Hf|].
    split; [apply others_kept_refl | apply same_session_refl].
  - inversion Hw as [|? ? Hrow Hrest]; subst.
    destruct (insert_row_found s rows0 row Hc Hf Hrow) as [s1 [He A1]].
    destruct A1 as [F1 [K1 S1]].
    destruct (IH s1 _ (same_session_connected _ _ S1 Hc) F1 Hrest)
      as [s2 [Hi A2]].
    exists s2. cbn [insert_sample_rows map].
    rewrite (bind_returned _ _ _ _ _ He), Hi. split; [reflexivity|].
    rewrite <- app_assoc in A2. cbn [app] in A2.
    eapply advanced_trans; [|exact A2].
    split; [exact F1|]. auto.
Qed.

Lemma insert_remaining_rows_found (rows : list (list string)) :
  forall (s : State) (rows0 : list (list Value)),
    st_connected s = true ->
    find_table (st_db s) tn = Some (import_table name columns rows0) ->
    Forall (has_width (List.length columns)) rows ->
    exists s',
      insert_remaining_rows tn (map fst columns) rows s = (Returned tt, s') /\
      advanced tn name columns (rows0 ++ map (stored_row columns) rows)%list
        s s'.
Proof.
  induction rows as [|row rest IH]; intros s rows0 Hc Hf Hw.
  - exists s. cbn [insert_remaining_rows map]. rewrite app_nil_r.
    split; [reflexivity|]. split; [exact Hf|].
    split; [apply others_kept_refl | apply same_session_refl].
  - inversion Hw as [|? ? Hrow Hrest]; subst.
    destruct (insert_row_found s rows0 row Hc Hf Hrow) as [s1 [He A1]].
    destruct A1 as [F1 [K1 S1]].
    destruct (IH s1 _ (same_session_connected _ _ S1 Hc) F1 Hrest)
      as [s2 [Hi A2]].
    exists s2. cbn [insert_remaining_rows map].
    unfold has_width in Hrow.
    rewrite length_map, Hrow, Nat.eqb_refl. cbn [negb].
    rewrite (bind_returned _ _ _ _ _ He), Hi. split; [reflexivity|].
    rewrite <- app_assoc in A2. cbn [app] in A2.
    eapply advanced_trans; [|exact A2].
    split; [exact F1|]. auto.
Qed.


Lemma create_index_found (create_index_on : option string) (s : State)
  (rows : list (list Value)) :
  st_connected s = true ->
  find_table (st_db s) tn = Some (import_table name columns rows) ->
  index_request_ok (st_db s) tn (map fst columns) create_index_on ->
  exists s',
    create_index tn create_index_on s = (Returned tt, s') /\
    tables (st_db s') = tables (st_db s) /\
    same_session s s'.
Proof.
  intros Hc Hf Hreq. unfold create_index.
  assert (Hnone : exists s', (Returned tt, s) = (Returned tt, s') /\
                             tables (st_db s') = tables (st_db s) /\
                             same_session s s').
  { exists s. split; [reflexivity|]. split; [reflexivity|].
    apply same_session_refl. }
  destruct create_index_on as [col|]; [|exact Hnone].
  destruct (is_empty col) eqn:Hcol; [exact Hnone|].
  destruct Hreq as [->|[ci [Hsan [[h [Hin Hh]] Hidx]]]]; [discriminate|].
  rewrite Hsan. cbn [lift]. unfold bind at 1, ret at 1.
  set (idx_name := "idx_" ++ tn ++ "_" ++ ci) in *.
  assert (Hrun : exists db',
            run_stmt (st_now s) (st_db s)
              (CreateIndexIfNotExists idx_name tn ci) = Ok (db', no_rows) /\
            tables db' = tables (st_db s)).
  { cbn [run_stmt]. unfold create_index_if_not_exists. rewrite Hf.
    unfold idx_name at 1. rewrite index_name_not_reserved.
    fold idx_name. rewrite Hidx.
    destruct (find_index (st_db s) idx_name); [eauto|].
    destruct (find_column (t_cols (import_table name columns rows)) ci)
      eqn:Ecol; [eexists; split; reflexivity|].
    exfalso. unfold find_column in Ecol. cbn [import_table t_cols] in Ecol.
    apply in_map_iff in Hin as [[h' t] [Heq Hin]]. cbn [fst] in Heq. subst h'.
    assert (Hp : In (plain_column h t)
                   (map (fun c => plain_column (fst c) (snd c)) columns)).
    { apply in_map_iff. exists (h, t). auto. }
    pose proof (find_none _ _ Ecol _ Hp) as Hn.
    cbn [plain_column c_name] in Hn. congruence. }
  destruct Hrun as [db' [Hrun Htabs]].
  destruct (execute_ok _ s _ _ Hc Hrun) as [s' [He [Hdb Hs]]].
  exists s'. rewrite (bind_returned _ _ _ _ _ He). unfold ret.
  split; [reflexivity|]. rewrite Hdb. auto.
Qed.

(** The two insertion loops of the import block. *)
Lemma insert_all_rows_found (rows : list (list string)) (s : State)
  (rows0 : list (list Value)) :
  st_connected s = true ->
  find_table (st_db s) tn = Some (import_table name columns rows0) ->
  Forall (has_width (List.length columns)) rows ->
  exists s1 s2,
    insert_sample_rows tn (map fst columns) (firstn 20 rows) s =
      (Returned tt, s1) /\
    insert_remaining_rows tn (map fst columns) (skipn 20 rows) s1 =
      (Returned tt, s2) /\
    advanced tn name columns (rows0 ++ map (stored_row columns) rows)%list
      s s2.
Proof.
  intros Hc Hf Hw.
  assert (Hw1 : Forall (has_width (List.length columns)) (firstn 20 rows)).
  { apply Forall_forall. intros r Hr. apply (proj1 (Forall_forall _ _) Hw).
    rewrite <- (firstn_skipn 20 rows). apply in_or_app. now left. }
  assert (Hw2 : Forall (has_width (List.length columns)) (skipn 20 rows)).
  { apply Forall_forall. intros r Hr. apply (proj1 (Forall_forall _ _) Hw).
    rewrite <- (firstn_skipn 20 rows). apply in_or_app. now right. }
  destruct (insert_sample_rows_found (firstn 20 rows) s rows0 Hc Hf Hw1)
    as [s1 [E1 A1]].
  pose proof A1 as [F1 [K1 S1]].
  destruct (insert_remaining_rows_found (skipn 20 rows) s1 _
              (same_session_connected _ _ S1 Hc) F1 Hw2) as [s2 [E2 A2]].
  pose proof (advanced_trans _ _ _ _ _ _ _ _ A1 A2) as A12.
  rewrite <- app_assoc, <- map_app, firstn_skipn in A12.
  exists s1, s2. auto.
Qed.

Lemma index_request_kept (db db' : DB) (headers : list string)
  (create_index_on : option string) :
  others_kept tn db db' ->
  index_request_ok db tn headers create_index_on ->
  index_request_ok db' tn headers create_index_on.
Proof.
  intros K Hreq. destruct create_index_on as [col|]; [|exact I].
  destruct Hreq as [Hcol|[ci [Hsan [Hh Hidx]]]]; [now left|].
  right. exists ci. split; [exact Hsan|]. split; [exact Hh|].
  rewrite (K _ (index_name_differs tn ci)). exact Hidx.
Qed.

(** The three loops of the import block that follow the CREATE TABLE. *)
Lemma import_rows_found (rows : list (list string))
  (create_index_on : option string) (s : State) (rows0 : list (list Value)) :
  st_connected s = true ->
  find_table (st_db s) tn = Some (import_table name columns rows0) ->
  Forall (has_width (List.length columns)) rows ->
  index_request_ok (st_db s) tn (map fst columns) create_index_on ->
  exists s',
    (insert_sample_rows tn (map fst columns) (firstn 20 rows) ;;
     insert_remaining_rows tn (map fst columns) (skipn 20 rows) ;;
     create_index tn create_index_on) s = (Returned tt, s') /\
    advanced tn name columns (rows0 ++ map (stored_row columns) rows)%list
      s s'.
Proof.
  intros Hc Hf Hw Hreq.
  destruct (insert_all_rows_found rows s rows0 Hc Hf Hw)
    as [s1 [s2 [E1 [E2 A12]]]].
  pose proof A12 as [F2 [K2 S2]].
  destruct (create_index_found create_index_on s2 _
              (same_session_connected _ _ S2 Hc) F2) as [s3 [E3 [T3 S3]]].
  { now apply (index_request_kept (st_db s)). }
  exists s3. rewrite (bind_returned _ _ _ _ _ E1).
  rewrite (bind_returned _ _ _ _ _ E2). split; [exact E3|].
  split; [|split].
  - unfold find_table in *. now rewrite T3.
  - intros b Hb. unfold find_table. rewrite T3. now apply K2.
  - now apply (same_session_trans _ s2).
Qed.

End ImportFound.

(** ** The import, from an accepted file *)


Lemma select_master_session (tn : string) (s : State) :
  st_connected s = true ->
  exists s',
    execute (SelectMasterTable tn) s =
      (Returned {| q_columns := ["name"];
                   q_rows := map (fun t => [VText (t_name t)])
                               (filter (fun t => String.eqb (t_name t) tn)
                                  (tables (st_db s))) |}, s') /\
    st_db s' = st_db s /\ same_session s s'.
Proof. intros Hc. now apply execute_ok. Qed.




Lemma with_connection_session {A : Type} (body : M A) (s s' : State)
  (o : Outcome A) :
  st_connected s = true ->
  autocommit s ->
  body s = (o, s') ->
  same_session s s' ->
  with_connection body s = (o, s').
Proof.
  intros Hc Ha Hb Hs.
  rewrite (with_connection_autocommit body s Hc Ha); [exact Hb|].
  rewrite Hb. now apply (same_session_autocommit s).
Qed.







(** ** Append mode *)



(** ** The audit entry of an import *)


Lemma find_audit_after_bootstrap (db : DB) :
  find_table db "audit_log" = None ->
  find_table (with_audit_table db) "audit_log" = Some audit_table.
Proof.
  intros H.
  apply (find_table_db_with (tables db) (indexes db) audit_table "audit_log" H).
  reflexivity.
Qed.




(** ** Failures inside the import block *)










(** X12.  Header normalization can make two cells collide (it does not
    make names unique).  Then the import of an otherwise accepted file
    into a new table, under a name that is not one of the engine's own,
    fails at the CREATE TABLE with a storage error: no table is created,
    no row is written, and nothing is logged. *)
Theorem colliding_headers_fail_at_creation
  (hash : string -> Z) (src : CsvSource) (csv_path table_name : string)
  (append : bool) (create_index_on : option string) (s : State) (tn : string)
  (raw_headers : list string) (reader : list (list string))
  (samples : list (list string) * list (list string)) :
  sanitize_identifier table_name = Ok tn ->
  src_size src <= MAX_CSV_SIZE ->
  (src_mime src = Some "text/csv" \/ endswith (lower csv_path) ".csv" = true) ->
  src_rows src = raw_headers :: reader ->
  read_samples (List.length (normalize_headers hash raw_headers)) 20 reader =
    Ok samples ->
  has_duplicate (normalize_headers hash raw_headers) = true ->
  fst (connect s) = Returned tt ->
  autocommit s ->
  reserved_name tn = false ->
  find_table (st_db (snd (connect s))) tn = None ->
  let r := import_csv hash src csv_path table_name append create_index_on s in
  fst r = Raised StorageError /\
  st_db (snd r) = st_db (snd (connect s)) /\
  st_errlog (snd r) = st_errlog s.
Proof.
  intros Hname Hsize Htype Hrows Hsamples Hdup Hconn Ha Hres Hnone.
  assert (Hm : exists s3,
            import_main hash src csv_path table_name append create_index_on s =
              (Raised StorageError, s3) /\
            st_db s3 = st_db (snd (connect s)) /\
            st_errlog s3 = st_errlog s).
  { rewrite import_main_steps, Hname.
    assert (Hs : (MAX_CSV_SIZE <? src_size src) = false)
      by (apply Z.ltb_ge; exact Hsize).
    rewrite Hs.
    match goal with
    | |- context [if ?c then (Raised InvalidFileType, s) else _] =>
        assert (Hty : c = false)
    end.
    { destruct Htype as [H|H]; rewrite H; [reflexivity|].
      now rewrite andb_false_r. }
    rewrite Hty, Hrows. cbv zeta. rewrite Hsamples.
    destruct samples as [sample_rows remaining].
    destruct (connect_outcome s) as [Hc1 _].
    destruct (connect_autocommit s Ha) as [Ha1 Herr1].
    destruct (connect s) as [[[]|e] s1] eqn:Hcs; cbn [fst snd] in *;
      [|discriminate].
    specialize (Hc1 eq_refl).
    destruct (select_master_session tn s1 Hc1) as [s2 [He [Hdb Hs2]]].
    rewrite He. unfold fetchone. cbn [q_rows].
    rewrite (unlisted_table_not_fetched _ _ Hnone). cbn [map hd_error andb].
    pose proof (same_session_connected _ _ Hs2 Hc1) as Hc2.
    pose proof (same_session_autocommit _ _ Hs2 Ha1) as Ha2.
    set (headers := normalize_headers hash raw_headers) in *.
    set (columns := infer_columns headers sample_rows).
    destruct (execute_err (CreateTableIfNotExists tn columns) s2 StorageError
                Hc2) as [s3 [E3 [D3 S3]]].
    { cbn [run_stmt]. unfold create_table_if_not_exists.
      assert (Hn : map c_name (map (fun c => plain_column (fst c) (snd c))
                                 columns) = headers).
      { rewrite map_map. apply infer_columns_names. }
      destruct (map (fun c => plain_column (fst c) (snd c)) columns) eqn:Em;
        [reflexivity|].
      rewrite Hres, Hdb, Hnone.
      destruct (find_index (st_db s1) tn); [reflexivity|].
      now rewrite Hn, Hdup. }
    assert (Hblock :
      import_block tn columns headers sample_rows remaining create_index_on s2
      = (Raised StorageError, s3)).
    { unfold import_block, bind. now rewrite E3. }
    rewrite (with_connection_session _ s2 s3 _ Hc2 Ha2 Hblock S3).
    exists s3. split; [reflexivity|]. split; [congruence|].
    destruct S3 as [_ [_ [_ [H3 _]]]]. destruct Hs2 as [_ [_ [_ [H2 _]]]].
    congruence. }
  destruct Hm as [s3 [Hm [Hdb Herr]]].
  cbv zeta. unfold import_csv, bind. rewrite Hm. cbn [fst snd]. auto.
Qed.

Lemma colliding_headers_fail_at_creation_witness :
  let r := import_csv (py_hash secret_seed0) colliding_source "c.csv" "t"
             false None (fresh_state "now") in
  normalize_headers (py_hash secret_seed0) ["a b"; "a_b"] = ["a_b"; "a_b"] /\
  fst r = Raised StorageError /\
  find_table (st_db (snd r)) "t" = None.
Proof.
  cbv zeta. split; [reflexivity|].
  destruct (colliding_headers_fail_at_creation (py_hash secret_seed0)
              colliding_source "c.csv" "t" false None (fresh_state "now") "t"
              ["a b"; "a_b"] [["1"; "2"]] ([["1"; "2"]], []))
    as [H1 [H2 _]].
  - reflexivity.
  - vm_compute. discriminate.
  - left. reflexivity.
  - reflexivity.
  - reflexivity.
  - reflexivity.
  - reflexivity.
  - split; reflexivity.
  - reflexivity.
  - reflexivity.
  - split; [exact H1|]. rewrite H2. reflexivity.
Defined.

(** ** Refusals before the database is touched *)

Lemma normalize_headers_length (hash : string -> Z) (headers : list string) :
  List.length (normalize_headers hash headers) = List.length headers.
Proof.
  unfold normalize_headers, enumerate.
  now rewrite !length_map, length_enumerate_from.
Qed.

(** X13.  The checks [import_csv] makes on its arguments and on the file
    come before any effect: an invalid table name, a file over the size
    limit, a file that is not CSV, a file without a header row, and a row
    of the wrong width among the first twenty data rows each raise their
    error with the state exactly as it was (no connection opened, no
    statement executed, nothing logged). *)
Theorem import_rejected_without_effect
  (hash : string -> Z) (src : CsvSource) (csv_path table_name : string)
  (append : bool) (create_index_on : option string) (s : State) :
  let r := import_csv hash src csv_path table_name append create_index_on s in
  let is_csv := src_mime src = Some "text/csv" \/
                endswith (lower csv_path) ".csv" = true in
  (forall e, sanitize_identifier table_name = Err e -> r = (Raised e, s)) /\
  (forall tn, sanitize_identifier table_name = Ok tn ->
     MAX_CSV_SIZE < src_size src -> r = (Raised FileTooLarge, s)) /\
  (forall tn, sanitize_identifier table_name = Ok tn ->
     src_size src <= MAX_CSV_SIZE -> ~ is_csv ->
     r = (Raised InvalidFileType, s)) /\
  (forall tn, sanitize_identifier table_name = Ok tn ->
     src_size src <= MAX_CSV_SIZE -> is_csv -> src_rows src = [] ->
     r = (Raised EmptyInput, s)) /\
  (forall tn raw_headers reader,
     sanitize_identifier table_name = Ok tn ->
     src_size src <= MAX_CSV_SIZE -> is_csv ->
     src_rows src = raw_headers :: reader ->
     Exists (fun row => ~ has_width (List.length raw_headers) row)
       (firstn 20 reader) ->
     r = (Raised RowLengthMismatch, s)).
Proof.
  cbv zeta. unfold import_csv, bind. rewrite import_main_steps.
  assert (Hcsv : src_mime src = Some "text/csv" \/
                 endswith (lower csv_path) ".csv" = true ->
                 negb match src_mime src with
                      | Some m => String.eqb m "text/csv"
                      | None => false
                      end && negb (endswith (lower csv_path) ".csv") = false).
  { intros [H|H]; rewrite H; [reflexivity | now rewrite andb_false_r]. }
  split; [|split; [|split; [|split]]].
  - intros e ->. reflexivity.
  - intros tn -> H. apply Z.ltb_lt in H. now rewrite H.
  - intros tn -> Hsize Hno. apply Z.ltb_ge in Hsize. rewrite Hsize.
    destruct (endswith (lower csv_path) ".csv") eqn:He; [tauto|].
    destruct (src_mime src) as [m|]; [|reflexivity].
    destruct (String.eqb m "text/csv") eqn:E; [|reflexivity].
    apply String.eqb_eq in E. subst m. tauto.
  - intros tn -> Hsize Htype ->. apply Z.ltb_ge in Hsize.
    now rewrite Hsize, (Hcsv Htype).
  - intros tn raw_headers reader -> Hsize Htype -> Hbad.
    apply Z.ltb_ge in Hsize. rewrite Hsize, (Hcsv Htype). cbv zeta.
    rewrite normalize_headers_length.
    now rewrite (proj2 (read_samples_cases _ 20 reader) Hbad).
Qed.

Lemma import_rejected_without_effect_witness :
  let s := table_t_state "now" in
  let h := py_hash secret_seed0 in
  import_csv h people_source "people.csv" "my table" false None s =
    (Raised InvalidIdentifier, s) /\
  import_csv h huge_source "huge.csv" "t" false None s =
    (Raised FileTooLarge, s) /\
  import_csv h untyped_source "people.txt" "t" false None s =
    (Raised InvalidFileType, s) /\
  import_csv h empty_source "empty.csv" "t" false None s =
    (Raised EmptyInput, s) /\
  import_csv h early_short_source "short.csv" "t" false None s =
    (Raised RowLengthMismatch, s).
Proof.
  cbv zeta. split; [|split; [|split; [|split]]].
  - destruct (import_rejected_without_effect (py_hash secret_seed0)
                people_source "people.csv" "my table" false None
                (table_t_state "now")) as [H _].
    apply H. reflexivity.
  - destruct (import_rejected_without_effect (py_hash secret_seed0)
                huge_source "huge.csv" "t" false None
                (table_t_state "now")) as [_ [H _]].
    apply (H "t"); [reflexivity | vm_compute; reflexivity].
  - destruct (import_rejected_without_effect (py_hash secret_seed0)
                untyped_source "people.txt" "t" false None
                (table_t_state "now")) as [_ [_ [H _]]].
    apply (H "t"); [reflexivity | vm_compute; discriminate |].
    intros [E|E]; discriminate.
  - destruct (import_rejected_without_effect (py_hash secret_seed0)
                empty_source "empty.csv" "t" false None
                (table_t_state "now")) as [_ [_ [_ [H _]]]].
    apply (H "t"); [reflexivity | vm_compute; discriminate | | reflexivity].
    left. reflexivity.
  - destruct (import_rejected_without_effect (py_hash secret_seed0)
                early_short_source "short.csv" "t" false None
                (table_t_state "now")) as [_ [_ [_ [_ H]]]].
    apply (H "t" ["a"; "b"] [["1"; "2"]; ["3"]]);
      [reflexivity | vm_compute; discriminate | | reflexivity |].
    + left. reflexivity.
    + right. left. unfold has_width. cbn. discriminate.
Defined.

(** ** Export *)

Lemma export_main_found (table_name filepath : string) (s : State) (t : Table) :
  st_connected s = true ->
  find_table (st_db s) table_name = Some t ->
  exists s',
    export_main table_name filepath s = (Returned tt, s') /\
    st_connected s' = true /\
    st_db s' = st_db s /\
    st_errlog s' = st_errlog s /\
    (autocommit s -> autocommit s') /\
    st_files s' =
      (st_files s ++
       [ {| f_path := filepath; f_header := map c_name (t_cols t);
            f_rows := map (fun row =>
                             map (fun col => row_get (map c_name (t_cols t))
                                               row col)
                                 (map c_name (t_cols t)))
                          (t_rows t) |} ])%list.
Proof.
  intros Hc Ht. unfold export_main.
  rewrite (bind_returned _ _ _ _ _ (connect_when_connected s Hc)).
  destruct (execute_ok (SelectAllFrom table_name) s (st_db s)
              {| q_columns := map c_name (t_cols t); q_rows := t_rows t |} Hc)
    as [s1 [He [Hdb Hs]]].
  { cbn [run_stmt]. now rewrite Ht. }
  rewrite (bind_returned _ _ _ _ _ He). unfold write_csv.
  eexists. split; [reflexivity|].
  pose proof Hs as [H1 [_ [H3 [H4 _]]]].
  cbn. rewrite H3. repeat split; try congruence.
  - apply (same_session_autocommit _ _ Hs H).
  - apply (same_session_autocommit _ _ Hs H).
Qed.

(** X14.  Exporting a table that is not in the database raises the
    engine's error before the destination is opened: no file is written,
    no audit entry is added and nothing is logged.  The name is put in the
    statement as it is given; the property is for names that are valid
    identifiers and not the engine's own. *)
Theorem export_missing_table_writes_nothing
  (table_name filepath : string) (s : State) :
  is_identifier table_name = true ->
  reserved_name table_name = false ->
  fst (connect s) = Returned tt ->
  autocommit s ->
  find_table (st_db (snd (connect s))) table_name = None ->
  let r := export_table_to_csv table_name filepath s in
  fst r = Raised StorageError /\
  st_files (snd r) = st_files s /\
  st_db (snd r) = st_db (snd (connect s)) /\
  st_errlog (snd r) = st_errlog s.
Proof.
  intros _ _ Hconn Ha Hnone. cbv zeta.
  unfold export_table_to_csv, export_main, bind.
  destruct (connect_outcome s) as [Hc1 [_ [Hf1 _]]].
  destruct (connect_autocommit s Ha) as [_ Herr1].
  destruct (connect s) as [[[]|e] s1] eqn:Hcs; cbn [fst snd] in *;
    [|discriminate].
  specialize (Hc1 eq_refl).
  destruct (execute_err (SelectAllFrom table_name) s1 StorageError Hc1)
    as [s2 [E2 [D2 S2]]].
  { cbn [run_stmt]. now rewrite Hnone. }
  rewrite E2. cbn [fst snd]. destruct S2 as [_ [_ [H3 [H4 _]]]].
  repeat split; congruence.
Qed.

Lemma export_missing_table_writes_nothing_witness :
  let r := export_table_to_csv "nothing" "out.csv" (table_t_state "now") in
  fst r = Raised StorageError /\ st_files (snd r) = [].
Proof.
  cbv zeta.
  destruct (export_missing_table_writes_nothing "nothing" "out.csv"
              (table_t_state "now")) as [H1 [H2 _]].
  - reflexivity.
  - reflexivity.
  - reflexivity.
  - split; reflexivity.
  - reflexivity.
  - split; [exact H1 | exact H2].
Defined.

(** X15.  Exporting a table whose column names are distinct and whose rows
    have one value per column returns and writes one file: the header is
    the table's column names in order and the rows are the table's rows in
    order, values unchanged.  Apart from the audit table, every table is
    left as it was.  The table is found without regard to the letter case
    of the name given; the property is for names that are valid
    identifiers and not the engine's own. *)
Theorem export_writes_the_table
  (table_name filepath : string) (s : State) (t : Table) :
  is_identifier table_name = true ->
  reserved_name table_name = false ->
  fst (connect s) = Returned tt ->
  autocommit s ->
  find_table (st_db (snd (connect s))) table_name = Some t ->
  well_shaped t ->
  let r := export_table_to_csv table_name filepath s in
  fst r = Returned tt /\
  st_files (snd r) =
    (st_files s ++
     [ {| f_path := filepath; f_header := map c_name (t_cols t);
          f_rows := t_rows t |} ])%list /\
  (forall b, ci_eqb "audit_log" b = false ->
             find_table (st_db (snd r)) b =
             find_table (st_db (snd (connect s))) b).
Proof.
  intros _ _ Hconn Ha Hfound [Hdup Hrows]. cbv zeta.
  destruct (connect_outcome s) as [Hc1 [_ [Hf1 _]]].
  destruct (connect_autocommit s Ha) as [Ha1 _].
  specialize (Hc1 Hconn).
  unfold export_table_to_csv.
  assert (Hm : exists s2,
            export_main table_name filepath s = (Returned tt, s2) /\
            st_connected s2 = true /\ autocommit s2 /\
            st_db s2 = st_db (snd (connect s)) /\
            st_files s2 =
              (st_files s ++
               [ {| f_path := filepath; f_header := map c_name (t_cols t);
                    f_rows := t_rows t |} ])%list).
  { destruct (export_main_found table_name filepath (snd (connect s)) t Hc1
                Hfound) as [s2 [E2 [Hc2 [D2 [_ [Ha2 F2]]]]]].
    exists s2. split; [|split; [exact Hc2|split; [auto|split; [exact D2|]]]].
    - rewrite <- E2. unfold export_main at 1 2, bind at 1 3.
      rewrite (connect_when_connected _ Hc1).
      now destruct (connect s) as [[[]|e] s1].
    - rewrite F2, Hf1. do 3 f_equal.
      rewrite <- (map_id (t_rows t)) at 2. apply map_ext_in. intros row Hrow.
      apply row_get_all; [exact Hdup|]. rewrite length_map.
      apply (proj1 (Forall_forall _ _) Hrows row Hrow). }
  destruct Hm as [s2 [E2 [Hc2 [[Hi2 Ht2] [D2 F2]]]]].
  rewrite (bind_returned _ _ _ _ _ E2).
  split; [apply _log_event_returns|]. split.
  - now rewrite _log_event_files.
  - intros b Hb.
    destruct (_log_event_keeps "EXPORT_CSV"
                ("Exported table " ++ table_name ++ " to " ++ filepath) b s2
                Hc2 Ht2 Hb) as [H _].
    now rewrite H, D2.
Qed.

Lemma export_writes_the_table_witness :
  let r := export_table_to_csv "T" "out.csv" (table_t_state "now") in
  fst r = Returned tt /\
  st_files (snd r) =
    [ {| f_path := "out.csv"; f_header := ["a"]; f_rows := [[VText "x"]] |} ].
Proof.
  cbv zeta.
  destruct (export_writes_the_table "T" "out.csv" (table_t_state "now")
              {| t_name := "t"; t_cols := [plain_column "a" TEXT];
                 t_rows := [[VText "x"]] |}) as [H1 [H2 _]].
  - reflexivity.
  - reflexivity.
  - reflexivity.
  - split; reflexivity.
  - reflexivity.
  - split; [reflexivity | repeat constructor].
  - split; [exact H1 | exact H2].
Defined.

(** ** Connecting *)

(** X16.  [connect] does nothing on a connected manager.  On a manager
    that is not connected it opens the connection and, when it returns,
    the audit table is in the database (the one that was there, or a new
    empty one); every table that was there is still there, unchanged.
    When the bootstrap fails the error is the engine's, the database is
    as it was, and the manager is left connected all the same: in every
    case a second [connect] does nothing, so a failed bootstrap is not
    tried again. *)
Theorem connect_bootstrap (s : State) :
  (st_connected s = true -> connect s = (Returned tt, s)) /\
  (st_connected s = false -> fst (connect s) = Returned tt ->
   st_connected (snd (connect s)) = true /\
   exists a, find_table (st_db (snd (connect s))) "audit_log" = Some a /\
             (find_table (st_db s) "audit_log" = None -> a = audit_table)) /\
  (forall t, In t (tables (st_db s)) ->
             In t (tables (st_db (snd (connect s))))) /\
  (forall e, fst (connect s) = Raised e ->
     e = StorageError /\ st_db (snd (connect s)) = st_db s /\
     st_connected (snd (connect s)) = true) /\
  connect (snd (connect s)) = (Returned tt, snd (connect s)).
Proof.
  assert (Hcases :
    st_connected s = false ->
    exists s1, st_connected s1 = true /\
      ((exists a, find_table (st_db s) "audit_log" = Some a /\
                  connect s = (Returned tt, s1) /\ st_db s1 = st_db s) \/
       (find_table (st_db s) "audit_log" = None /\
        find_index (st_db s) "audit_log" <> None /\
        connect s = (Raised StorageError, s1) /\ st_db s1 = st_db s) \/
       (find_table (st_db s) "audit_log" = None /\
        connect s = (Returned tt, s1) /\
        st_db s1 = with_audit_table (st_db s)))).
  { intros Hc. unfold connect. rewrite Hc.
    unfold bind, open_connection, _create_audit_table, with_connection, bind,
      execute, ret. cbn -[create_table_if_not_exists].
    rewrite create_audit_table_cases.
    destruct (find_table (st_db s) "audit_log") as [a|] eqn:Ht.
    - eexists. split; [|left; exists a; repeat split]; reflexivity.
    - destruct (find_index (st_db s) "audit_log") eqn:Hi.
      + eexists. split; [|right; left; repeat split; try reflexivity];
          [reflexivity | discriminate].
      + eexists. split; [|right; right; repeat split]; reflexivity. }
  destruct (st_connected s) eqn:Hc.
  - assert (H : connect s = (Returned tt, s))
      by (unfold connect; now rewrite Hc).
    rewrite H. cbn [fst snd]. split; [auto|]. split; [discriminate|].
    split; [auto|]. split; [discriminate|].
    unfold connect. now rewrite Hc.
  - destruct (Hcases eq_refl)
      as [s1 [Hc1 [[a [Ha [E D]]] | [[Hn [Hi [E D]]] | [Hn [E D]]]]]];
      rewrite E; cbn [fst snd]; (split; [discriminate|]).
    + split.
      * intros _ _. split; [exact Hc1|]. exists a. rewrite D.
        split; [exact Ha | congruence].
      * split; [intros t Ht; now rewrite D|]. split; [discriminate|].
        unfold connect. now rewrite Hc1.
    + split; [discriminate|].
      split; [intros t Ht; now rewrite D|]. split.
      * intros e He. injection He as <-. auto.
      * unfold connect. now rewrite Hc1.
    + split.
      * intros _ _. split; [exact Hc1|]. exists audit_table. rewrite D.
        split; [now apply find_audit_after_bootstrap | reflexivity].
      * split.
        -- intros t Ht. rewrite D. cbn. apply in_or_app. now left.
        -- split; [discriminate|]. unfold connect. now rewrite Hc1.
Qed.

Lemma connect_bootstrap_witness :
  let s := fresh_state "now" in
  st_connected (snd (connect s)) = true /\
  find_table (st_db (snd (connect s))) "audit_log" = Some audit_table /\
  fst (connect (index_named_audit_state "now")) = Raised StorageError /\
  st_connected (snd (connect (index_named_audit_state "now"))) = true.
Proof.
  cbv zeta.
  destruct (connect_bootstrap (fresh_state "now")) as [_ [H _]].
  destruct (H eq_refl eq_refl) as [Hc [a [Ha Haudit]]].
  destruct (connect_bootstrap (index_named_audit_state "now"))
    as [_ [_ [_ [Hfail _]]]].
  destruct (Hfail StorageError eq_refl) as [_ [_ Hc']].
  split; [exact Hc|]. split.
  - rewrite Ha. f_equal. apply Haudit. reflexivity.
  - split; [reflexivity | exact Hc'].
Defined.

(** ** The schema query *)






(** ** Listing the tables *)

Lemma insert_sorted_in (x y : string) (l : list string) :
  In y (insert_sorted x l) <-> y = x \/ In y l.
Proof.
  induction l as [|a l IH]; cbn.
  - intuition.
  - destruct (String.leb x a); cbn; [intuition|]. rewrite IH. intuition.
Qed.

Lemma sort_names_in (y : string) (l : list string) :
  In y (sort_names l) <-> In y l.
Proof.
  induction l as [|a l IH]; cbn; [reflexivity|].
  rewrite insert_sorted_in, IH. intuition.
Qed.

Lemma leb_false_flip (a b : string) :
  String.leb a b = false -> String.leb b a = true.
Proof.
  intros H. destruct (String.leb_total a b) as [E|E]; [congruence | exact E].
Qed.

Lemma insert_sorted_ascending (x : string) (l : list string) :
  ascending l -> ascending (insert_sorted x l).
Proof.
  unfold ascending. induction l as [|a l IH]; cbn; intros H.
  - constructor.
  - destruct (String.leb x a) eqn:E.
    + now constructor.
    + apply leb_false_flip in E.
      assert (Hl : LocallySorted (fun a b => String.leb a b = true) l)
        by (inversion H; subst; [constructor | assumption]).
      specialize (IH Hl).
      destruct l as [|b l']; cbn in *.
      * now repeat constructor.
      * inversion H; subst.
        destruct (String.leb x b) eqn:E2; constructor; assumption.
Qed.

Lemma sort_names_ascending (l : list string) : ascending (sort_names l).
Proof.
  induction l as [|a l IH]; cbn; [constructor|].
  now apply insert_sorted_ascending.
Qed.

Lemma audit_name_not_reserved (n : string) :
  ci_eqb n "audit_log" = true -> like_sqlite_any n = false.
Proof.
  unfold ci_eqb, like_sqlite_any. intros H. apply String.eqb_eq in H.
  now rewrite H.
Qed.

(** X18.  [list_tables] returns the names of the tables of the database
    that do not match [sqlite_%], in ascending order: a name is in the
    answer exactly when a table has it and it does not match.  The audit
    table the manager keeps for itself is therefore part of the answer.
    The database is not changed. *)
Theorem list_tables_sorted_user_tables (s : State) :
  fst (connect s) = Returned tt ->
  let db := st_db (snd (connect s)) in
  exists names,
    fst (list_tables s) = Returned (map VText names) /\
    ascending names /\
    (forall n, In n names <->
               (exists t, In t (tables db) /\ t_name t = n) /\
               like_sqlite_any n = false) /\
    (forall a, find_table db "audit_log" = Some a -> In (t_name a) names) /\
    st_db (snd (list_tables s)) = db.
Proof.
  intros Hconn db.
  destruct (connect_outcome s) as [Hc1 _]. specialize (Hc1 Hconn).
  set (names := sort_names (filter (fun n => negb (like_sqlite_any n))
                              (map t_name (tables db)))).
  assert (Hin : forall n, In n names <->
               (exists t, In t (tables db) /\ t_name t = n) /\
               like_sqlite_any n = false).
  { intros n. unfold names. rewrite sort_names_in, filter_In, in_map_iff.
    rewrite negb_true_iff.
    split; intros [[t [A B]] L]; (split; [exists t; auto | exact L]). }
  exists names.
  destruct (execute_ok SelectMasterTables (snd (connect s)) db
              {| q_columns := ["name"];
                 q_rows := map (fun n => [VText n]) names |} Hc1 eq_refl)
    as [s2 [He [Hd _]]].
  assert (Hrun : list_tables s = (Returned (map VText names), s2)).
  { unfold list_tables.
    rewrite (bind_returned _ _ s (snd (connect s)) tt).
    - rewrite (bind_returned _ _ _ _ _ He). unfold ret. cbn [q_rows].
      now rewrite map_map.
    - rewrite <- Hconn. now destruct (connect s). }
  rewrite Hrun. cbn [fst snd].
  split; [reflexivity|]. split; [apply sort_names_ascending|].
  split; [exact Hin|]. split; [|exact Hd].
  intros a Ha. apply Hin. split.
  - exists a. split; [|reflexivity].
    unfold find_table in Ha. now apply find_some in Ha as [Ha _].
  - apply audit_name_not_reserved. now apply (found_name db).
Qed.

Lemma list_tables_sorted_user_tables_witness :
  exists names,
    fst (list_tables (fresh_state "now")) = Returned (map VText names) /\
    ascending names /\
    In "audit_log" names.
Proof.
  destruct (list_tables_sorted_user_tables (fresh_state "now") eq_refl)
    as [names [H1 [H2 [_ [H4 _]]]]].
  exists names. split; [exact H1|]. split; [exact H2|].
  apply (H4 audit_table). reflexivity.
Defined.

(** ** How a header cell is repaired *)

Lemma digit_not_ident_start (c : ascii) :
  is_digit c = true -> is_ident_start c = false.
Proof. by_cases_on_char c. Qed.

Lemma ident_char_start_or_digit (c : ascii) :
  is_ident_char c = true -> is_digit c = false -> is_ident_start c = true.
Proof. by_cases_on_char c. Qed.

Lemma header_first_pass_nonempty (i : nat) (h : string) :
  exists c r, header_first_pass i h = String c r.
Proof.
  unfold header_first_pass.
  destruct (replace " " "_" (strip h)) as [|c r] eqn:E; cbn [is_empty].
  - now exists "c"%char, ("ol" ++ str_nat i).
  - now exists c, r.
Qed.

(** X19.  What the two passes make of a header cell is decided by the
    first character left after trimming and replacing the spaces (or of
    the positional name [col<i>] when nothing is left).  When it is a
    digit, the whole cell is given up for the name built from the hash.
    In every other case the cell is kept, with each character outside
    letters, digits and underscore turned into an underscore. *)
Theorem header_repair_by_first_character
  (hash : string -> Z) (raw : string) (i : nat) :
  exists c r,
    header_first_pass i raw = String c r /\
    (is_digit c = true ->
     normalizeHeader hash raw i =
       "col_" ++ str_Z (Z.land (hash (String c r)) 65535)) /\
    (is_digit c = false ->
     normalizeHeader hash raw i = sub_non_ident (String c r)).
Proof.
  destruct (header_first_pass_nonempty i raw) as [c [r E]].
  exists c, r. split; [exact E|].
  pose proof (header_first_pass_last i raw) as Hlast.
  unfold normalizeHeader. rewrite E in *.
  pose proof (IDENT_RE_match_full (String c r) Hlast) as Hfull.
  unfold header_second_pass.
  destruct (IDENT_RE_match (String c r)) eqn:Em; cbn [negb].
  - symmetry in Hfull. pose proof (is_identifier_chars _ Hfull) as Hchars.
    cbn [is_identifier] in Hfull. apply andb_true_iff in Hfull as [Hs _].
    split.
    + intros Hd. rewrite (digit_not_ident_start c Hd) in Hs. discriminate.
    + intros _. now rewrite (sub_non_ident_id _ Hchars).
  - assert (Hsafe : IDENT_RE_match (sub_non_ident (String c r)) =
                    is_ident_start
                      (if is_ident_char c then c else "_"%char)).
    { unfold sub_non_ident. cbn [smap IDENT_RE_match].
      fold (is_ident_char c). fold (sub_non_ident r).
      rewrite (ident_tail_sall _ (sub_non_ident_chars r)).
      apply andb_true_r. }
    rewrite Hsafe. split.
    + intros Hd. rewrite (digit_is_ident_char c Hd).
      now rewrite (digit_not_ident_start c Hd).
    + intros Hd. destruct (is_ident_char c) eqn:Ec.
      * now rewrite (ident_char_start_or_digit c Ec Hd).
      * reflexivity.
Qed.

Lemma header_repair_by_first_character_witness :
  normalizeHeader (py_hash secret_seed0) "2020 sales" 0 =
    "col_" ++ str_Z (Z.land (py_hash secret_seed0 "2020_sales") 65535) /\
  normalizeHeader (py_hash secret_seed0) "sales-2020" 0 = "sales_2020".
Proof.
  destruct (header_repair_by_first_character (py_hash secret_seed0)
              "2020 sales" 0) as [c [r [E [Hd _]]]].
  destruct (header_repair_by_first_character (py_hash secret_seed0)
              "sales-2020" 0) as [c' [r' [E' [_ Hk]]]].
  vm_compute in E. injection E as <- <-.
  vm_compute in E'. injection E' as <- <-.
  split; [exact (Hd eq_refl) | exact (Hk eq_refl)].
Defined.

(** ** Closing and reopening *)

Lemma find_table_kept_by_bootstrap (db : DB) (name : string) (t : Table) :
  find_table db name = Some t ->
  find_table (with_audit_table db) name = Some t.
Proof.
  unfold find_table, with_audit_table. cbn [tables].
  induction (tables db) as [|a l IH]; cbn; [discriminate|].
  destruct (ci_eqb (t_name a) name); [auto | exact IH].
Qed.

(** X20.  Closing a connected manager that has no open transaction and
    connecting again loses no table: every table found before is found
    again with the same columns and rows.  When the audit table is there,
    the second [connect] succeeds and the database is exactly what it
    was.  Closing a closed manager does nothing. *)
Theorem reconnect_keeps_tables (s : State) :
  st_connected s = true ->
  st_tx s = None ->
  let s' := snd (connect (snd (close s))) in
  st_connected (snd (close s)) = false /\
  st_connected s' = true /\
  (forall name t, find_table (st_db s) name = Some t ->
                  find_table (st_db s') name = Some t) /\
  (find_table (st_db s) "audit_log" <> None ->
   fst (connect (snd (close s))) = Returned tt /\ st_db s' = st_db s) /\
  close (snd (close s)) = (Returned tt, snd (close s)).
Proof.
  intros Hc Htx. destruct s as [conn iso db tx now trace errlog files].
  cbn in Hc, Htx. subst conn tx. cbv zeta.
  unfold close at 1 3 5 7 8. cbn [st_connected snd committed st_tx st_db
    st_isolation st_now st_trace st_errlog st_files].
  split; [reflexivity|].
  unfold connect, close. cbn [st_connected].
  unfold bind, open_connection, _create_audit_table, with_connection, bind,
    execute, ret. cbn -[create_table_if_not_exists].
  rewrite create_audit_table_cases.
  destruct (find_table db "audit_log") as [a|] eqn:Ha.
  - cbn. repeat split; auto.
  - destruct (find_index db "audit_log") eqn:Hi; cbn.
    + split; [reflexivity|]. split; [auto|].
      split; [|reflexivity]. intros H. now destruct H.
    + split; [reflexivity|]. split.
      * intros name t Hf. now apply find_table_kept_by_bootstrap.
      * split; [|reflexivity]. intros H. now destruct H.
Qed.

Lemma reconnect_keeps_tables_witness :
  let s := snd (connect (fresh_state "now")) in
  st_connected (snd (close s)) = false /\
  fst (connect (snd (close s))) = Returned tt /\
  st_db (snd (connect (snd (close s)))) = st_db s.
Proof.
  cbv zeta.
  destruct (reconnect_keeps_tables (snd (connect (fresh_state "now")))
              eq_refl eq_refl) as [H1 [_ [_ [H4 _]]]].
  split; [exact H1|]. apply H4. discriminate.
Defined.
